(** * iFR: the padding routines of [Support] (src/iFR.py)

    [Support.RemovePadding] strips the trailing 0xFF bytes of a ROM dump and
    [Support.AddPadding] appends 0xFF bytes up to a requested size.  Both work
    on a file named by its path, so the embedding is a small model of the
    Python file primitives they call ([open], [seek], [read], [write],
    [tell], [os.path.getsize], [os.truncate]) over a store of files, with
    Python exceptions as an outcome of the computation. *)

From Stdlib Require Import ZArith Strings.Byte Lia.
From stdpp Require Import base option list gmap strings.

Local Open Scope Z_scope.

(** ** Python values *)

(** A [bytes] object. *)
Abbreviation bytes := (list byte).

#[global] Instance byte_eq_dec : EqDecision byte := Byte.byte_eq_dec.

(** [len(b)] *)
Definition len (b : bytes) : Z := Z.of_nat (length b).

(** [b * n]: the repetition of a bytes object; a count below one gives the
    empty bytes object, as in Python. *)
Definition bytes_mul (b : bytes) (n : Z) : bytes :=
  if n <=? 0 then [] else concat (replicate (Z.to_nat n) b).

(** ** Exceptions and the store of files *)

Inductive errno := ENOENT | EINVAL | EACCES.   (* EACCES: PermissionError *)

Inductive exn :=
| OSError (e : errno)            (* FileNotFoundError is OSError ENOENT *)
| UnsupportedOperation.

(** What running a piece of code gives: a value, a raised exception, or
    [OutOfFuel] when the bound put on a [while True] loop is used up. *)
Inductive outcome (A : Type) :=
| Return (a : A)
| Raise (e : exn)
| OutOfFuel.
Arguments Return {A} a.
Arguments Raise {A} e.
Arguments OutOfFuel {A}.

(** The files on disk, by path. *)
Abbreviation store := (gmap string bytes).

(** Code that reads and changes the files and may raise. *)
Definition io (A : Type) : Type := store → outcome A * store.

#[global] Instance io_ret : MRet io := λ A a σ, (Return a, σ).

#[global] Instance io_bind : MBind io := λ A B k m σ,
  match m σ with
  | (Return a, σ') => k a σ'
  | (Raise e, σ') => (Raise e, σ')
  | (OutOfFuel, σ') => (OutOfFuel, σ')
  end.

Definition raise {A : Type} (e : exn) : io A := λ σ, (Raise e, σ).

Definition out_of_fuel {A : Type} : io A := λ σ, (OutOfFuel, σ).

(** ** File objects *)

Inductive mode := RB | AB.

Inductive whence := SEEK_SET | SEEK_CUR | SEEK_END.   (* 0, 1, 2 *)

(** A file object: the path it was opened on, its mode and its position. *)
Record file_obj := { f_name : string; f_mode : mode; f_pos : Z }.

Definition at_pos (file : file_obj) (p : Z) : file_obj :=
  {| f_name := f_name file; f_mode := f_mode file; f_pos := p |}.

(** The bytes of a path (none when there is no such file). *)
Definition contents (σ : store) (path : string) : bytes :=
  default [] (σ !! path).

(** The store holds the files, not the directories they are in.  Whether a
    file that is not there can be created is the host's answer: [refusal
    path] is [None] when the system creates the file, and the exception it
    raises when it will not (the directory of the path is missing:
    [OSError ENOENT]; it may not be written: [OSError EACCES]).  The empty
    path names no file on any system. *)
Class host := {
  refusal : string → option exn;
  refusal_empty : refusal "" = Some (OSError ENOENT)
}.

(** A host that creates every file asked for: the one the worked examples
    run on. *)
Definition willing_host : host :=
  {| refusal := λ path,
       if String.eqb path "" then Some (OSError ENOENT) else None;
     refusal_empty := eq_refl |}.

Section host_model.
Context {the_host : host}.

(** [open(path, 'rb')] needs the file to exist; [open(path, 'ab')] creates
    an empty one when it does not and the host allows it, raises what the
    host raises when it does not, and starts at the end. *)
Definition open (path : string) (m : mode) : io file_obj := λ σ,
  match m, σ !! path with
  | RB, None => (Raise (OSError ENOENT), σ)
  | RB, Some _ => (Return {| f_name := path; f_mode := RB; f_pos := 0 |}, σ)
  | AB, None =>
      match refusal path with
      | Some e => (Raise e, σ)
      | None =>
          (Return {| f_name := path; f_mode := AB; f_pos := 0 |},
           <[path := []]> σ)
      end
  | AB, Some b =>
      (Return {| f_name := path; f_mode := AB; f_pos := len b |}, σ)
  end.

(** [file.seek(offset, whence)]: a target before the start of the file is
    refused by the system with EINVAL. *)
Definition seek (file : file_obj) (offset : Z) (w : whence) : io file_obj := λ σ,
  let base :=
    match w with
    | SEEK_SET => 0
    | SEEK_CUR => f_pos file
    | SEEK_END => len (contents σ (f_name file))
    end in
  let target := base + offset in
  if target <? 0 then (Raise (OSError EINVAL), σ)
  else (Return (at_pos file target), σ).

(** [file.tell()] *)
Definition tell (file : file_obj) : Z := f_pos file.

(** [file.read(n)] for [n >= 0]: at most [n] bytes from the position on, the
    empty bytes object at or after the end of the file. *)
Definition read (file : file_obj) (n : Z) : io (bytes * file_obj) := λ σ,
  let data :=
    take (Z.to_nat n) (drop (Z.to_nat (f_pos file)) (contents σ (f_name file))) in
  (Return (data, at_pos file (f_pos file + len data)), σ).

(** [file.write(data)]: in append mode the bytes go to the end of the file
    wherever the position is; a file opened for reading refuses. *)
Definition write (file : file_obj) (data : bytes) : io (Z * file_obj) := λ σ,
  match f_mode file with
  | RB => (Raise UnsupportedOperation, σ)
  | AB =>
      let old := contents σ (f_name file) in
      (Return (len data, at_pos file (len old + len data)),
       <[f_name file := old ++ data]> σ)
  end.

(** [os.path.getsize(path)] *)
Definition os_path_getsize (path : string) : io Z := λ σ,
  match σ !! path with
  | None => (Raise (OSError ENOENT), σ)
  | Some b => (Return (len b), σ)
  end.

(** [os.truncate(path, length)]: cuts the file to [length] bytes, or extends
    it with zero bytes; a negative length is refused with EINVAL. *)
Definition os_truncate (path : string) (length : Z) : io unit := λ σ,
  match σ !! path with
  | None => (Raise (OSError ENOENT), σ)
  | Some b =>
      if length <? 0 then (Raise (OSError EINVAL), σ)
      else
        let n := Z.to_nat length in
        (Return tt, <[path := take n b ++ replicate (n - List.length b)%nat x00]> σ)
  end.

(** ** [Support.RemovePadding] and [Support.AddPadding] *)

(** The [while True] loop of [RemovePadding]; [fuel] bounds its turns. *)
Fixpoint RemovePadding_loop (fuel : nat) (file : file_obj) (padding_size : Z)
  : io Z :=
  match fuel with
  | O => out_of_fuel
  | S fuel =>
      file ← seek file (-1 - padding_size) SEEK_END;
      '(byte, file) ← read file 1;
      if decide (byte = []) then mret padding_size
      else if decide (byte = [xff]) then
        RemovePadding_loop fuel file (padding_size + 1)
      else mret padding_size
  end.

(** The body of [RemovePadding].  The [with] block closes the file on the way
    out, by return or by exception; closing a file opened for reading leaves
    the store as it is. *)
Definition RemovePadding_fuel (fuel : nat) (file_path : string) : io Z :=
  file ← open file_path RB;
  padding_size ← RemovePadding_loop fuel file 0;
  size ← os_path_getsize file_path;
  os_truncate file_path (size - padding_size);;
  mret padding_size.

(** [RemovePadding]: one turn of the loop per byte of the file and one more
    is all the loop can take ([RemovePadding_fuel_enough] below). *)
Definition RemovePadding (file_path : string) : io Z := λ σ,
  RemovePadding_fuel (S (length (contents σ file_path))) file_path σ.

Definition AddPadding (file_path : string) (result_size : Z) : io Z :=
  file ← open file_path AB;
  file ← seek file 0 SEEK_END;
  let current_size := tell file in
  let padding_size := result_size - current_size in
  '(_, file) ← write file (bytes_mul [xff] padding_size);
  mret padding_size.

End host_model.

(** ** [RemovePadding] over any file primitives

    The same lines of [RemovePadding] with the built-ins they call taken as
    they come: whatever [open], [seek], [read], [os.path.getsize] and
    [os.truncate] do to the files, and wherever they raise (a file that may
    not be read or written, a failing disk). *)

Section any_primitives.
Variable open_ : string → mode → io file_obj.
Variable seek_ : file_obj → Z → whence → io file_obj.
Variable read_ : file_obj → Z → io (bytes * file_obj).
Variable getsize_ : string → io Z.
Variable truncate_ : string → Z → io unit.

Fixpoint RemovePadding_loop_on (fuel : nat) (file : file_obj) (padding_size : Z)
  : io Z :=
  match fuel with
  | O => out_of_fuel
  | S fuel =>
      file ← seek_ file (-1 - padding_size) SEEK_END;
      '(byte, file) ← read_ file 1;
      if decide (byte = []) then mret padding_size
      else if decide (byte = [xff]) then
        RemovePadding_loop_on fuel file (padding_size + 1)
      else mret padding_size
  end.

Definition RemovePadding_on (fuel : nat) (file_path : string) : io Z :=
  file ← open_ file_path RB;
  padding_size ← RemovePadding_loop_on fuel file 0;
  size ← getsize_ file_path;
  truncate_ file_path (size - padding_size);;
  mret padding_size.

(** A call made by the scan raises [e] and leaves the files [σ']: the seek
    of a turn, or the read after it, all the calls of the turns before
    having returned, each read with the byte 0xFF. *)
Inductive scan_call_raises
  : nat → file_obj → Z → store → exn → store → Prop :=
| seek_raises fuel file padding_size σ e σ' :
    seek_ file (-1 - padding_size) SEEK_END σ = (Raise e, σ') →
    scan_call_raises (S fuel) file padding_size σ e σ'
| read_raises fuel file padding_size σ file1 σ1 e σ' :
    seek_ file (-1 - padding_size) SEEK_END σ = (Return file1, σ1) →
    read_ file1 1 σ1 = (Raise e, σ') →
    scan_call_raises (S fuel) file padding_size σ e σ'
| later_turn_raises fuel file padding_size σ file1 σ1 file2 σ2 e σ' :
    seek_ file (-1 - padding_size) SEEK_END σ = (Return file1, σ1) →
    read_ file1 1 σ1 = (Return ([xff], file2), σ2) →
    scan_call_raises fuel file2 (padding_size + 1) σ2 e σ' →
    scan_call_raises (S fuel) file padding_size σ e σ'.

(** A call made by [RemovePadding] raises [e] and leaves the files [σ'],
    the calls before it having returned: [open], a call of the scan,
    [os.path.getsize] after the scan, or [os.truncate] after that. *)
Inductive call_raises (fuel : nat) (file_path : string) (σ : store)
    (e : exn) (σ' : store) : Prop :=
| open_raises :
    open_ file_path RB σ = (Raise e, σ') →
    call_raises fuel file_path σ e σ'
| scan_raises file σ1 :
    open_ file_path RB σ = (Return file, σ1) →
    scan_call_raises fuel file 0 σ1 e σ' →
    call_raises fuel file_path σ e σ'
| getsize_raises file σ1 padding_size σ2 :
    open_ file_path RB σ = (Return file, σ1) →
    RemovePadding_loop_on fuel file 0 σ1 = (Return padding_size, σ2) →
    getsize_ file_path σ2 = (Raise e, σ') →
    call_raises fuel file_path σ e σ'
| truncate_raises file σ1 padding_size σ2 size σ3 :
    open_ file_path RB σ = (Return file, σ1) →
    RemovePadding_loop_on fuel file 0 σ1 = (Return padding_size, σ2) →
    getsize_ file_path σ2 = (Return size, σ3) →
    truncate_ file_path (size - padding_size) σ3 = (Raise e, σ') →
    call_raises fuel file_path σ e σ'.

End any_primitives.

(** ** What the specification asks for, in its own words *)

(** The trailing fill bytes of a buffer are counted from its end, up to the
    first byte that is not a fill byte or to the start of the buffer. *)
Fixpoint count_fill_from_end (rev_buffer : bytes) : nat :=
  match rev_buffer with
  | b :: rest => if decide (b = xff) then S (count_fill_from_end rest) else O
  | [] => O
  end.

Definition trailing_fill (buffer : bytes) : nat :=
  count_fill_from_end (reverse buffer).

(** The buffer truncated by that many bytes from its end. *)
Definition strip_fill (buffer : bytes) : bytes :=
  take (length buffer - trailing_fill buffer)%nat buffer.


(** A buffer is either fill bytes only, or ends with a byte that is not a
    fill byte followed by some fill bytes. *)
Inductive buffer_shape : bytes → Prop :=
| all_fill (n : nat) : buffer_shape (replicate n xff)
| content_then_fill (pre : bytes) (x : byte) (k : nat) :
    x ≠ xff → buffer_shape (pre ++ x :: replicate k xff).

(** [raises r]: the run [r] ended with an exception. *)
Definition raises {A : Type} (r : outcome A * store) : bool :=
  match r.1 with
  | Raise _ => true
  | _ => false
  end.

(** ** Python text, for the code that reads what flashrom prints *)

(** A [str]: its characters, as code points. *)
Abbreviation str := (list Z).

(** A [str] literal of 7-bit characters. *)
Definition py (s : string) : str :=
  (λ a, Z.of_N (Ascii.N_of_ascii a)) <$> String.list_ascii_of_string s.

(** A [bytes] literal of 7-bit characters. *)
Definition pyb (s : string) : bytes := String.list_byte_of_string s.

(** The exceptions of the text code, and what evaluating it gives. *)
Inductive py_error := IndexError | ValueError | UnicodeDecodeError.

Inductive result (A : Type) :=
| Ok (a : A)
| Err (e : py_error).
Arguments Ok {A} a.
Arguments Err {A} e.

#[global] Instance result_ret : MRet result := λ A a, Ok a.

#[global] Instance result_bind : MBind result := λ A B k m,
  match m with
  | Ok a => k a
  | Err e => Err e
  end.

(** [c.isspace()] for one character: the white space of Python 3, which is
    also what [strip()] and [split()] without argument take off. *)
Definition isspace (c : Z) : bool :=
  ((9 <=? c) && (c <=? 13)) || ((28 <=? c) && (c <=? 32))
  || (c =? 133) || (c =? 160) || (c =? 5760)
  || ((8192 <=? c) && (c <=? 8202))
  || (c =? 8232) || (c =? 8233) || (c =? 8239) || (c =? 8287) || (c =? 12288).

(** [s.lstrip()], [s.rstrip()], [s.strip()] *)
Fixpoint lstrip (s : str) : str :=
  match s with
  | c :: s' => if isspace c then lstrip s' else s
  | [] => []
  end.

Definition rstrip (s : str) : str := reverse (lstrip (reverse s)).

Definition strip (s : str) : str := rstrip (lstrip s).

(** [s.startswith(prefix)] *)
Fixpoint startswith (s prefix : str) : bool :=
  match prefix, s with
  | [], _ => true
  | p :: prefix', c :: s' => (c =? p) && startswith s' prefix'
  | _ :: _, [] => false
  end.

(** [sub in s] *)
Fixpoint contains (sub s : str) : bool :=
  match s with
  | [] => startswith [] sub
  | _ :: s' => startswith s sub || contains sub s'
  end.

(** [s.split(sep)]: the pieces between the occurrences of [sep], found from
    the left and not overlapping; [skip] counts the characters of an
    occurrence still to pass.  An empty separator is refused. *)
Fixpoint split_from (sep : str) (skip : nat) (s : str) : list str :=
  match s with
  | [] => [[]]
  | c :: s' =>
      match skip with
      | S skip' => split_from sep skip' s'
      | O =>
          if startswith s sep then [] :: split_from sep (length sep - 1) s'
          else
            match split_from sep 0 s' with
            | piece :: pieces => (c :: piece) :: pieces
            | [] => [[c]]
            end
      end
  end.

Definition split (s sep : str) : result (list str) :=
  match sep with
  | [] => Err ValueError
  | _ :: _ => Ok (split_from sep 0 s)
  end.

(** [s.split()]: the words between runs of white space; [word] is the word
    being read. *)
Fixpoint split_ws_from (word : str) (s : str) : list str :=
  match s with
  | [] => match word with [] => [] | _ :: _ => [word] end
  | c :: s' =>
      if isspace c then
        match word with
        | [] => split_ws_from [] s'
        | _ :: _ => word :: split_ws_from [] s'
        end
      else split_ws_from (word ++ [c]) s'
  end.

Definition split_ws (s : str) : list str := split_ws_from [] s.

(** [s.replace(old, new)] *)
Fixpoint replace_from (old new : str) (skip : nat) (s : str) : str :=
  match s with
  | [] => []
  | c :: s' =>
      match skip with
      | S skip' => replace_from old new skip' s'
      | O =>
          if startswith s old then
            new ++ replace_from old new (length old - 1) s'
          else c :: replace_from old new 0 s'
      end
  end.

Definition replace (s old new : str) : str :=
  match old with
  | [] => new ++ flat_map (λ c, c :: new) s
  | _ :: _ => replace_from old new 0 s
  end.

(** [l[i]], with a negative index counted from the end. *)
Definition getitem {A : Type} (l : list A) (i : Z) : result A :=
  let n := Z.of_nat (length l) in
  let j := if i <? 0 then i + n else i in
  if (0 <=? j) && (j <? n) then
    match l !! Z.to_nat j with
    | Some x => Ok x
    | None => Err IndexError
    end
  else Err IndexError.

(** [l[i:]] *)
Definition slice_from {A : Type} (l : list A) (i : Z) : list A :=
  let n := Z.of_nat (length l) in
  drop (Z.to_nat (if i <? 0 then Z.max (i + n) 0 else i)) l.

(** [l.index(x)] *)
Fixpoint index {A : Type} `{EqDecision A} (l : list A) (x : A) : result Z :=
  match l with
  | [] => Err ValueError
  | y :: l' =>
      if decide (y = x) then Ok 0
      else i ← index l' x; Ok (i + 1)
  end.

(** A list comprehension [[f(x) for x in l]] whose [f] may raise. *)
Fixpoint comprehension {A B : Type} (f : A → result B) (l : list A)
  : result (list B) :=
  match l with
  | [] => Ok []
  | x :: l' => y ← f x; ys ← comprehension f l'; Ok (y :: ys)
  end.

(** ** [Constants._get_flashrom_version] *)

(** [stdout] is what [ver.stdout.readline] gives, line by line, until the
    empty string of the end of the output.  A function that falls off its
    end returns [None]. *)
Fixpoint _get_flashrom_version (stdout : list str) : result (option str) :=
  match stdout with
  | [] => Ok None
  | stdout_line :: stdout' =>
      if contains (py "flashrom") stdout_line then
        fields ← split stdout_line (py " ");
        field ← getitem fields 1;
        Ok (Some (strip field))
      else _get_flashrom_version stdout'
  end.

(** ** [OnAutoDetect] of [PageRead], [PageWrite] and [PageInfo] *)

(** What a page holds, as far as [OnAutoDetect] goes. *)
Record page := {
  programmer : str;               (* self.constants.programmer *)
  chip_dropdown : list str;       (* the items of self.chip_dropdown *)
  chip_dropdown_enabled : bool;   (* Enable() / Disable() *)
  logged : list str;              (* the messages given to logging.info *)
  dialogs : list str              (* the messages of the dialogs shown *)
}.

(** Code of a page: it changes the page and may raise. *)
Definition ui (A : Type) : Type := page → result A * page.

#[global] Instance ui_ret : MRet ui := λ A a self, (Ok a, self).

#[global] Instance ui_bind : MBind ui := λ A B k m self,
  match m self with
  | (Ok a, self') => k a self'
  | (Err e, self') => (Err e, self')
  end.

(** A value computed without the page, or the exception it raises. *)
Definition eval {A : Type} (r : result A) : ui A := λ self, (r, self).

Definition logging_info (msg : str) : ui unit := λ self,
  (Ok tt,
   {| programmer := programmer self;
      chip_dropdown := chip_dropdown self;
      chip_dropdown_enabled := chip_dropdown_enabled self;
      logged := logged self ++ [msg];
      dialogs := dialogs self |}).

(** [self.chip_dropdown.Append(item)] *)
Definition chip_dropdown_Append (item : str) : ui unit := λ self,
  (Ok tt,
   {| programmer := programmer self;
      chip_dropdown := chip_dropdown self ++ [item];
      chip_dropdown_enabled := chip_dropdown_enabled self;
      logged := logged self;
      dialogs := dialogs self |}).

(** [self.chip_dropdown.GetItems()] *)
Definition chip_dropdown_GetItems : ui (list str) := λ self,
  (Ok (chip_dropdown self), self).

(** [self.chip_dropdown.Enable()] *)
Definition chip_dropdown_Enable : ui unit := λ self,
  (Ok tt,
   {| programmer := programmer self;
      chip_dropdown := chip_dropdown self;
      chip_dropdown_enabled := true;
      logged := logged self;
      dialogs := dialogs self |}).

(** [wx.MessageDialog(self, message, ...).ShowModal()] *)
Definition MessageDialog_ShowModal (message : str) : ui unit := λ self,
  (Ok tt,
   {| programmer := programmer self;
      chip_dropdown := chip_dropdown self;
      chip_dropdown_enabled := chip_dropdown_enabled self;
      logged := logged self;
      dialogs := dialogs self ++ [message] |}).

(** A page with [names] more in its dropdown and [msgs] more logged, to say
    what the loop below does. *)
Definition page_with (self : page) (names msgs : list str) : page :=
  {| programmer := programmer self;
     chip_dropdown := chip_dropdown self ++ names;
     chip_dropdown_enabled := chip_dropdown_enabled self;
     logged := logged self ++ msgs;
     dialogs := dialogs self |}.

(** The [for] loop over the lines [chips_raw.stdout.readline] gives. *)
Fixpoint OnAutoDetect_loop (stdout : list str) : ui unit :=
  match stdout with
  | [] => mret tt
  | stdout_line :: stdout' =>
      (if contains (py "Found") stdout_line then
         name ← eval (fields ← split (strip stdout_line) [34];
                      getitem fields 1);
         logging_info (py "Found ROM chip: " ++ name);;
         name ← eval (fields ← split (strip stdout_line) [34];
                      getitem fields 1);
         chip_dropdown_Append name
       else mret tt);;
      OnAutoDetect_loop stdout'
  end.

Definition OnAutoDetect (stdout : list str) : ui unit := λ self,
  if decide (programmer self = py "") then
    logging_info (py "Please select a programmer.") self
  else
    (OnAutoDetect_loop stdout;;
     items ← chip_dropdown_GetItems;
     if 1 <? Z.of_nat (length items) then
       logging_info (py "WARNING: More than 1 possible chip detected. Please select the correct chip from the dropdown.");;
       MessageDialog_ShowModal (py "More than 1 possible chip detected. Please select the correct chip from the dropdown.");;
       chip_dropdown_Enable
     else
       items ← chip_dropdown_GetItems;
       if Z.of_nat (length items) =? 0 then
         logging_info (py "No ROM chip detected. Please check your programmer connection.")
       else mret tt) self.

(** ** [iFR.PopulateAvailableProgrammers] *)

(** [output_lines] is what [output.stdout.readlines()] gives and
    [programmer_combo] the items of the combo box; [decode] is
    [bytes.decode('utf-8')] of the Python runtime, taken as it comes.  The
    items are appended once the list of programmers is complete. *)
Definition PopulateAvailableProgrammers (decode : bytes → result str)
    (output_lines : list bytes) (programmer_combo : list str)
  : result unit * list str :=
  match
    options_start ← index output_lines (pyb "Valid choices are:" ++ [x0a]);
    options ← comprehension (λ line, decoded ← decode line; Ok (strip decoded))
                 (slice_from output_lines (options_start + 1));
    Ok (concat ((λ line, split_ws (replace (replace line (py ".") (py ""))
                                           (py ",") (py ""))) <$> options))
  with
  | Ok programmers => (Ok tt, programmer_combo ++ programmers)
  | Err e => (Err e, programmer_combo)
  end.

Section host_facts.
Context {the_host : host}.

(** ** Worked scenarios of the specification *)

Example scenario_1_remove :
  RemovePadding "rom.bin" {[ "rom.bin" := [x01; x02; xff; xff; xff] ]}
  = (Return 3, {[ "rom.bin" := [x01; x02] ]}).
Proof. vm_compute. reflexivity. Qed.

Example scenario_2_add :
  AddPadding "rom.bin" 5 {[ "rom.bin" := [x01; x02] ]}
  = (Return 3, {[ "rom.bin" := [x01; x02; xff; xff; xff] ]}).
Proof. vm_compute. reflexivity. Qed.

Example no_padding_unchanged :
  RemovePadding "rom.bin" {[ "rom.bin" := [xff; x00; x07] ]}
  = (Return 0, {[ "rom.bin" := [xff; x00; x07] ]}).
Proof. vm_compute. reflexivity. Qed.

(** ** Running the primitives *)

Lemma io_bind_eq {A B : Type} (m : io A) (k : A → io B) (σ : store) :
  (m ≫= k) σ =
  match m σ with
  | (Return a, σ') => k a σ'
  | (Raise e, σ') => (Raise e, σ')
  | (OutOfFuel, σ') => (OutOfFuel, σ')
  end.
Proof. reflexivity. Qed.

Lemma contents_Some (σ : store) (path : string) (B : bytes) :
  σ !! path = Some B → contents σ path = B.
Proof. intros H. unfold contents. by rewrite H. Qed.

Lemma contents_None (σ : store) (path : string) :
  σ !! path = None → contents σ path = [].
Proof. intros H. unfold contents. by rewrite H. Qed.

Lemma len_app (a b : bytes) : len (a ++ b) = len a + len b.
Proof. unfold len. rewrite length_app. lia. Qed.

Lemma len_cons (x : byte) (b : bytes) : len (x :: b) = 1 + len b.
Proof. unfold len. cbn [length]. lia. Qed.

Lemma len_replicate (n : nat) (x : byte) : len (replicate n x) = Z.of_nat n.
Proof. unfold len. by rewrite length_replicate. Qed.

Lemma bytes_mul_single (x : byte) (n : Z) :
  bytes_mul [x] n = replicate (Z.to_nat n) x.
Proof.
  unfold bytes_mul. destruct (Z.leb_spec n 0) as [Hn | Hn].
  - by replace (Z.to_nat n) with O by lia.
  - induction (Z.to_nat n) as [| m IH]; simpl; [done | by rewrite IH].
Qed.

(** One byte read at an index inside the buffer is that byte. *)
Lemma take_1_drop (B : bytes) (i : nat) (b : byte) :
  B !! i = Some b → take 1 (drop i B) = [b].
Proof. intros Hi. rewrite (drop_S _ _ _ Hi). simpl. by rewrite take_0. Qed.

(** One turn of the loop, on a file of [B] bytes: the seek from the end
    fails when [padding_size] bytes and one more are not there, otherwise
    the byte at [len B - 1 - padding_size] decides. *)
Lemma RemovePadding_loop_turn fuel file padding_size (σ : store) (B : bytes) :
  contents σ (f_name file) = B →
  RemovePadding_loop (S fuel) file padding_size σ =
  if len B + (-1 - padding_size) <? 0 then (Raise (OSError EINVAL), σ)
  else
    match B !! Z.to_nat (len B + (-1 - padding_size)) with
    | None => (Return padding_size, σ)
    | Some b =>
        if decide (b = xff) then
          RemovePadding_loop fuel
            (at_pos file (len B + (-1 - padding_size) + 1)) (padding_size + 1) σ
        else (Return padding_size, σ)
    end.
Proof.
  intros HB. cbn [RemovePadding_loop]. rewrite io_bind_eq.
  unfold seek. rewrite HB.
  destruct (len B + (-1 - padding_size) <? 0) eqn:Hneg; [done |].
  rewrite io_bind_eq. unfold read. cbn [f_name f_pos at_pos]. rewrite HB.
  change (Z.to_nat 1) with 1%nat.
  destruct (B !! Z.to_nat (len B + (-1 - padding_size))) as [b |] eqn:Hb.
  - rewrite (take_1_drop _ _ _ Hb).
    destruct (decide ([b] = [])) as [? | _]; [done |].
    destruct (decide (b = xff)) as [-> | Hne].
    + by destruct (decide ([xff] = [xff])).
    + destruct (decide ([b] = [xff])) as [Heq | _]; [| done].
      by injection Heq.
  - apply lookup_ge_None in Hb. rewrite (drop_ge _ _ Hb). simpl.
    by destruct (decide (@nil byte = [])).
Qed.

(** ** The backward scan *)

Section scan.
Context (σ : store).

(** With a byte [x] that is not a fill byte followed by [k] fill bytes at
    the end of the file, a scan that has counted [j <= k] of them stops at
    [x] and answers [k]. *)
Lemma RemovePadding_loop_content fuel file (pre : bytes) (x : byte) (k j : nat) :
  contents σ (f_name file) = pre ++ x :: replicate k xff →
  x ≠ xff → (j ≤ k)%nat → (k - j < fuel)%nat →
  RemovePadding_loop fuel file (Z.of_nat j) σ = (Return (Z.of_nat k), σ).
Proof.
  intros HB Hx. revert file j HB.
  induction fuel as [| fuel IH]; intros file j HB Hj Hfuel; [lia |].
  rewrite (RemovePadding_loop_turn _ _ _ _ _ HB).
  rewrite len_app, len_cons, len_replicate.
  destruct (Z.ltb_spec (len pre + (1 + Z.of_nat k) + (-1 - Z.of_nat j)) 0)
    as [Hneg | _]; [unfold len in Hneg; lia |].
  replace (Z.to_nat (len pre + (1 + Z.of_nat k) + (-1 - Z.of_nat j)))
    with (length pre + (k - j))%nat by (unfold len; lia).
  rewrite lookup_app_r by lia.
  replace (length pre + (k - j) - length pre)%nat with (k - j)%nat by lia.
  destruct (decide (j = k)) as [-> | Hne].
  - replace (k - k)%nat with O by lia. simpl.
    by destruct (decide (x = xff)).
  - replace (k - j)%nat with (S (k - S j)) by lia. simpl.
    rewrite lookup_replicate_2 by lia.
    destruct (decide (xff = xff)) as [_ | ?]; [| done].
    replace (Z.of_nat j + 1) with (Z.of_nat (S j)) by lia.
    apply IH; [done | lia | lia].
Qed.

(** With nothing but [n] fill bytes in the file, a scan that has counted
    [j <= n] of them goes on to the start of the file, and the seek that
    follows, before the start, raises. *)
Lemma RemovePadding_loop_all_fill fuel file (n j : nat) :
  contents σ (f_name file) = replicate n xff →
  (j ≤ n)%nat → (n - j < fuel)%nat →
  RemovePadding_loop fuel file (Z.of_nat j) σ = (Raise (OSError EINVAL), σ).
Proof.
  intros HB. revert file j HB.
  induction fuel as [| fuel IH]; intros file j HB Hj Hfuel; [lia |].
  rewrite (RemovePadding_loop_turn _ _ _ _ _ HB).
  rewrite len_replicate.
  destruct (Z.ltb_spec (Z.of_nat n + (-1 - Z.of_nat j)) 0) as [_ | Hpos];
    [done |].
  rewrite lookup_replicate_2 by lia.
  destruct (decide (xff = xff)) as [_ | ?]; [| done].
  replace (Z.of_nat j + 1) with (Z.of_nat (S j)) by lia.
  apply IH; [done | lia | lia].
Qed.

(** The scan only reads: whatever it answers, the files are as before. *)
Lemma RemovePadding_loop_store fuel file padding_size o σ' :
  RemovePadding_loop fuel file padding_size σ = (o, σ') → σ' = σ.
Proof.
  revert file padding_size.
  induction fuel as [| fuel IH]; intros file padding_size.
  - cbn. unfold out_of_fuel. by intros [= _ <-].
  - rewrite (RemovePadding_loop_turn _ _ _ _ _ eq_refl).
    repeat case_match; try (by intros [= _ <-]). apply IH.
Qed.
End scan.

(** ** Buffers: fill bytes at the end *)

Lemma buffer_shape_of (B : bytes) : buffer_shape B.
Proof.
  induction B as [| b B IH] using rev_ind.
  - exact (all_fill 0).
  - destruct (decide (b = xff)) as [-> | Hb].
    + destruct IH as [n | pre x k Hx].
      * rewrite <- replicate_S_end. exact (all_fill (S n)).
      * rewrite <- app_assoc. cbn [app].
        rewrite <- replicate_S_end. exact (content_then_fill pre x (S k) Hx).
    + exact (content_then_fill B b 0 Hb).
Qed.

Lemma count_fill_from_end_replicate (k : nat) (rest : bytes) :
  count_fill_from_end (replicate k xff ++ rest) = (k + count_fill_from_end rest)%nat.
Proof.
  induction k as [| k IH]; [done |]. cbn.
  destruct (decide (xff = xff)); [by rewrite IH | done].
Qed.

Lemma trailing_fill_all_fill (n : nat) : trailing_fill (replicate n xff) = n.
Proof.
  unfold trailing_fill. rewrite reverse_replicate.
  rewrite <- (app_nil_r (replicate n xff)), count_fill_from_end_replicate.
  cbn. lia.
Qed.

Lemma trailing_fill_content (pre : bytes) (x : byte) (k : nat) :
  x ≠ xff → trailing_fill (pre ++ x :: replicate k xff) = k.
Proof.
  intros Hx. unfold trailing_fill.
  rewrite reverse_app, reverse_cons, reverse_replicate, <- app_assoc.
  rewrite count_fill_from_end_replicate. cbn.
  destruct (decide (x = xff)); [done | lia].
Qed.

Lemma strip_fill_all_fill (n : nat) : strip_fill (replicate n xff) = [].
Proof.
  unfold strip_fill. rewrite trailing_fill_all_fill, length_replicate.
  by replace (n - n)%nat with O by lia.
Qed.

Lemma strip_fill_content (pre : bytes) (x : byte) (k : nat) :
  x ≠ xff → strip_fill (pre ++ x :: replicate k xff) = pre ++ [x].
Proof.
  intros Hx. unfold strip_fill. rewrite (trailing_fill_content _ _ _ Hx).
  rewrite (cons_middle x pre), app_assoc.
  apply take_app_length'. rewrite !length_app, length_replicate. lia.
Qed.

(** The fill bytes of a buffer that has nothing else are all of it. *)
Lemma strip_fill_nil_iff (B : bytes) : strip_fill B = [] ↔ Forall (eq xff) B.
Proof.
  destruct (buffer_shape_of B) as [n | pre x k Hx].
  - rewrite strip_fill_all_fill. split; [intros _ | done].
    apply Forall_replicate_eq.
  - rewrite (strip_fill_content _ _ _ Hx). split.
    + by destruct pre.
    + intros [_ HF]%Forall_app. by inversion HF; subst.
Qed.

(** ** [RemovePadding] on each kind of file *)

Section remove.
Context (σ : store) (file_path : string).

(** No such file: [open] raises. *)
Lemma RemovePadding_fuel_missing fuel :
  σ !! file_path = None →
  RemovePadding_fuel fuel file_path σ = (Raise (OSError ENOENT), σ).
Proof.
  intros Hnone. unfold RemovePadding_fuel.
  rewrite io_bind_eq. unfold open. by rewrite Hnone.
Qed.

(** A file of fill bytes only, the empty file among them: the scan runs
    into the start of the file and the seek raises; nothing is cut. *)
Lemma RemovePadding_fuel_all_fill fuel (n : nat) :
  σ !! file_path = Some (replicate n xff) → (n < fuel)%nat →
  RemovePadding_fuel fuel file_path σ = (Raise (OSError EINVAL), σ).
Proof.
  intros Hfile Hfuel. unfold RemovePadding_fuel.
  rewrite io_bind_eq. unfold open. rewrite Hfile.
  rewrite io_bind_eq.
  pose proof (RemovePadding_loop_all_fill σ fuel
    {| f_name := file_path; f_mode := RB; f_pos := 0 |} n 0) as Hloop.
  change (Z.of_nat 0) with 0 in Hloop. rewrite Hloop; [done | | lia | lia].
  by apply contents_Some.
Qed.

(** A file with a byte that is not a fill byte: the fill bytes after the
    last such byte are counted and cut. *)
Lemma RemovePadding_fuel_content fuel (pre : bytes) (x : byte) (k : nat) :
  σ !! file_path = Some (pre ++ x :: replicate k xff) →
  x ≠ xff → (k < fuel)%nat →
  RemovePadding_fuel fuel file_path σ
  = (Return (Z.of_nat k), <[file_path := pre ++ [x]]> σ).
Proof.
  intros Hfile Hx Hfuel. unfold RemovePadding_fuel.
  rewrite io_bind_eq. unfold open. rewrite Hfile.
  rewrite io_bind_eq.
  pose proof (RemovePadding_loop_content σ fuel
    {| f_name := file_path; f_mode := RB; f_pos := 0 |} pre x k 0) as Hloop.
  change (Z.of_nat 0) with 0 in Hloop. rewrite Hloop; [| | done | lia | lia].
  2: { by apply contents_Some. }
  rewrite io_bind_eq. unfold os_path_getsize. rewrite Hfile.
  rewrite io_bind_eq. unfold os_truncate. rewrite Hfile.
  rewrite len_app, len_cons, len_replicate.
  destruct (Z.ltb_spec (len pre + (1 + Z.of_nat k) - Z.of_nat k) 0)
    as [Hneg | _]; [unfold len in Hneg; lia |].
  cbn. f_equal. f_equal.
  replace (Z.to_nat (len pre + (1 + Z.of_nat k) - Z.of_nat k))
    with (length (pre ++ [x])) by (rewrite length_app; unfold len; cbn; lia).
  replace (pre ++ x :: replicate k xff)
    with ((pre ++ [x]) ++ replicate k xff) by (by rewrite <- app_assoc).
  rewrite take_app_length.
  replace (length (pre ++ [x]) - length ((pre ++ [x]) ++ replicate k xff))%nat
    with O by (rewrite !length_app; lia).
  cbn. by rewrite app_nil_r.
Qed.

(** [RemovePadding] in full, against the specification's functions. *)
Lemma RemovePadding_spec (B : bytes) :
  σ !! file_path = Some B →
  RemovePadding file_path σ =
  if decide (strip_fill B = []) then (Raise (OSError EINVAL), σ)
  else (Return (Z.of_nat (trailing_fill B)), <[file_path := strip_fill B]> σ).
Proof.
  intros Hfile. unfold RemovePadding. rewrite (contents_Some _ _ _ Hfile).
  destruct (buffer_shape_of B) as [n | pre x k Hx].
  - rewrite strip_fill_all_fill. destruct (decide (@nil byte = [])); [| done].
    apply (RemovePadding_fuel_all_fill _ n Hfile).
    rewrite length_replicate. lia.
  - rewrite (strip_fill_content _ _ _ Hx), (trailing_fill_content _ _ _ Hx).
    destruct (decide (pre ++ [x] = [])) as [Hnil | _]; [by destruct pre |].
    apply (RemovePadding_fuel_content _ pre x k Hfile Hx).
    rewrite length_app. cbn. rewrite length_replicate. lia.
Qed.

(** The bound on the loop is enough: more fuel changes nothing, and the
    loop never stops for lack of it. *)
Lemma RemovePadding_fuel_enough fuel :
  (length (contents σ file_path) < fuel)%nat →
  RemovePadding_fuel fuel file_path σ = RemovePadding file_path σ.
Proof.
  intros Hfuel. unfold RemovePadding.
  destruct (σ !! file_path) as [B |] eqn:Hfile.
  - rewrite (contents_Some _ _ _ Hfile) in *.
    destruct (buffer_shape_of B) as [n | pre x k Hx].
    + rewrite length_replicate in Hfuel.
      rewrite !(RemovePadding_fuel_all_fill _ n Hfile);
        rewrite ?length_replicate; [done | lia | lia].
    + rewrite length_app in Hfuel. cbn in Hfuel.
      rewrite length_replicate in Hfuel.
      rewrite !(RemovePadding_fuel_content _ pre x k Hfile Hx);
        rewrite ?length_app; cbn; rewrite ?length_replicate; [done | lia | lia].
  - by rewrite !RemovePadding_fuel_missing.
Qed.

Lemma RemovePadding_never_out_of_fuel :
  (RemovePadding file_path σ).1 ≠ OutOfFuel.
Proof.
  destruct (σ !! file_path) as [B |] eqn:Hfile.
  - rewrite (RemovePadding_spec B Hfile). by case_decide.
  - unfold RemovePadding. by rewrite RemovePadding_fuel_missing.
Qed.
End remove.

(** The specification's two functions split a buffer into what is kept and
    the fill bytes counted, and what is kept does not end with a fill byte:
    the run counted is the longest one. *)
Lemma strip_fill_split (B : bytes) :
  B = strip_fill B ++ replicate (trailing_fill B) xff.
Proof.
  destruct (buffer_shape_of B) as [n | pre x k Hx].
  - by rewrite strip_fill_all_fill, trailing_fill_all_fill.
  - rewrite (strip_fill_content _ _ _ Hx), (trailing_fill_content _ _ _ Hx).
    by rewrite <- app_assoc.
Qed.

Lemma strip_fill_last (B : bytes) : last (strip_fill B) ≠ Some xff.
Proof.
  destruct (buffer_shape_of B) as [n | pre x k Hx].
  - by rewrite strip_fill_all_fill.
  - rewrite (strip_fill_content _ _ _ Hx), last_snoc. congruence.
Qed.

(** A buffer that does not end with a fill byte has none to strip. *)
Lemma strip_fill_no_fill (B : bytes) (x : byte) :
  last B = Some x → x ≠ xff → trailing_fill B = O ∧ strip_fill B = B.
Proof.
  intros [pre ->]%last_Some Hx.
  pose proof (trailing_fill_content pre x 0 Hx) as Ht.
  pose proof (strip_fill_content pre x 0 Hx) as Hs.
  cbn in Ht, Hs. by rewrite Ht, Hs.
Qed.

(** ** [AddPadding] on a file that is there *)

Section add.
Context (σ : store) (file_path : string) (B : bytes).
Hypothesis Hfile : σ !! file_path = Some B.

Lemma AddPadding_existing (result_size : Z) :
  AddPadding file_path result_size σ
  = (Return (result_size - len B),
     <[file_path := B ++ replicate (Z.to_nat (result_size - len B)) xff]> σ).
Proof.
  unfold AddPadding. rewrite io_bind_eq. unfold open. rewrite Hfile.
  rewrite io_bind_eq. unfold seek. cbn [f_name].
  rewrite (contents_Some _ _ _ Hfile).
  destruct (Z.ltb_spec (len B + 0) 0) as [Hneg | _];
    [unfold len in Hneg; lia |].
  rewrite io_bind_eq. unfold write, tell. cbn [at_pos f_mode f_name f_pos].
  rewrite (contents_Some _ _ _ Hfile), bytes_mul_single.
  replace (len B + 0) with (len B) by lia. done.
Qed.

(** With a target below the size of the file nothing is written. *)
Lemma AddPadding_below (result_size : Z) :
  result_size < len B →
  AddPadding file_path result_size σ = (Return (result_size - len B), σ).
Proof.
  intros Hlt. rewrite AddPadding_existing.
  replace (Z.to_nat (result_size - len B)) with O by lia.
  cbn. by rewrite app_nil_r, (insert_id _ _ _ Hfile).
Qed.
End add.

(** ** Removal: what holds when the call returns *)

Section removal_returns.
Context (σ σ' : store) (file_path : string) (B : bytes) (n : Z).
Hypothesis Hfile : σ !! file_path = Some B.
Hypothesis Hret : RemovePadding file_path σ = (Return n, σ').

(** A call that returns has counted the trailing fill bytes and cut them
    off, and the file held a byte that is not a fill byte. *)
Lemma RemovePadding_returns_inv :
  n = Z.of_nat (trailing_fill B)
  ∧ σ' = <[file_path := strip_fill B]> σ
  ∧ strip_fill B ≠ [].
Proof.
  rewrite (RemovePadding_spec _ _ _ Hfile) in Hret.
  destruct (decide (strip_fill B = [])) as [? | Hne]; [done |].
  by injection Hret as <- <-.
Qed.

(** A second call finds nothing more to remove. *)
Lemma RemovePadding_again : RemovePadding file_path σ' = (Return 0, σ').
Proof.
  destruct RemovePadding_returns_inv as (_ & -> & Hne).
  rewrite (RemovePadding_spec _ _ (strip_fill B)) by apply lookup_insert_eq.
  destruct (last (strip_fill B)) as [x |] eqn:Hlast;
    [| by apply last_None in Hlast].
  assert (x ≠ xff) as Hx.
  { intros ->. by apply (strip_fill_last B). }
  destruct (strip_fill_no_fill _ _ Hlast Hx) as [Hcount Hkept].
  rewrite Hcount, Hkept, insert_insert_eq.
  by destruct (decide (strip_fill B = [])).
Qed.
End removal_returns.

(** Adding padding to a buffer that does not end with a fill byte and then
    removing it gives the buffer back, and both calls report the same
    number of bytes. *)
Lemma AddPadding_RemovePadding (σ : store) (file_path : string) (B : bytes)
    (x : byte) (result_size : Z) :
  σ !! file_path = Some B → last B = Some x → x ≠ xff → len B ≤ result_size →
  (AddPadding file_path result_size ;; RemovePadding file_path) σ
  = (Return (result_size - len B), σ).
Proof.
  intros Hfile [pre ->]%last_Some Hx Hsize.
  rewrite io_bind_eq, (AddPadding_existing _ _ _ Hfile).
  set (k := Z.to_nat (result_size - len (pre ++ [x]))).
  rewrite (RemovePadding_spec _ _ (pre ++ x :: replicate k xff)).
  2: { rewrite lookup_insert_eq, <- app_assoc. done. }
  rewrite (strip_fill_content _ _ _ Hx), (trailing_fill_content _ _ _ Hx).
  destruct (decide (pre ++ [x] = [])) as [? | _]; [by destruct pre |].
  rewrite insert_insert_eq, (insert_id _ _ _ Hfile).
  f_equal. f_equal. lia.
Qed.

(** A file of fill bytes only: the call raises and cuts nothing. *)
Lemma RemovePadding_all_fill_raises (σ : store) (file_path : string) (n : nat) :
  σ !! file_path = Some (replicate n xff) →
  RemovePadding file_path σ = (Raise (OSError EINVAL), σ).
Proof.
  intros Hfile. rewrite (RemovePadding_spec _ _ _ Hfile), strip_fill_all_fill.
  by destruct (decide (@nil byte = [])).
Qed.

(** ** The claims *)

(** C1 (the code departs from it).  The claim: for every buffer,
    [RemovePadding] answers the length of the longest run of 0xFF bytes at
    the end of the file and cuts exactly that run.  On a file that holds a
    byte other than 0xFF this is what the code does ([RemovePadding_spec],
    [strip_fill_split], [strip_fill_last]).  On the two-byte file 0xFF 0xFF
    the run is the whole file, 2 bytes, and the buffer asked for is empty;
    the code raises [OSError EINVAL] from the seek before the start of the
    file and leaves the two bytes in place. *)
Theorem RemovePadding_fill_only_file :
  trailing_fill [xff; xff] = 2%nat
  ∧ strip_fill [xff; xff] = []
  ∧ RemovePadding "rom.bin" {[ "rom.bin" := [xff; xff] ]}
    = (Raise (OSError EINVAL), {[ "rom.bin" := [xff; xff] ]}).
Proof. repeat split; vm_compute; reflexivity. Qed.

(** C2 (the code departs from it).  The claim: on an empty file
    [RemovePadding] answers 0, leaves the file empty and raises nothing.
    The code seeks to one byte before the end of an empty file, which is
    before its start: whatever the other files are, the call raises
    [OSError EINVAL]; the file stays empty. *)
Theorem RemovePadding_empty_file (σ : store) (file_path : string) :
  RemovePadding file_path (<[file_path := []]> σ)
  = (Raise (OSError EINVAL), <[file_path := []]> σ).
Proof.
  apply (RemovePadding_all_fill_raises _ _ 0). apply lookup_insert_eq.
Qed.

(** C3 (the code departs from it).  The claim: on a file of N >= 1 bytes,
    all 0xFF, [RemovePadding] answers N and leaves the file empty.  The code
    counts the N bytes, then seeks to one byte before the start of the file:
    for every N >= 1 the call raises [OSError EINVAL] and the N bytes are
    still there. *)
Theorem RemovePadding_all_fill_file (σ : store) (file_path : string) (n : nat) :
  RemovePadding file_path (<[file_path := replicate (S n) xff]> σ)
  = (Raise (OSError EINVAL), <[file_path := replicate (S n) xff]> σ).
Proof.
  apply (RemovePadding_all_fill_raises _ _ (S n)). apply lookup_insert_eq.
Qed.

(** C4 (the code departs from it).  The claim: for every buffer B that does
    not end with 0xFF, the empty buffer included, and every target
    T >= len B, [AddPadding] followed by [RemovePadding] gives B back.  For
    a buffer that is not empty the code does so ([AddPadding_RemovePadding]).
    For the empty buffer and any target [t >= 0], [AddPadding] writes [t]
    fill bytes and [RemovePadding] then raises [OSError EINVAL]: the file is
    left with the [t] fill bytes, not empty. *)
Theorem AddPadding_RemovePadding_empty_buffer
    (σ : store) (file_path : string) (t : nat) :
  (AddPadding file_path (Z.of_nat t) ;; RemovePadding file_path)
    (<[file_path := []]> σ)
  = (Raise (OSError EINVAL), <[file_path := replicate t xff]> σ).
Proof.
  rewrite io_bind_eq.
  rewrite (AddPadding_existing _ _ [] (lookup_insert_eq _ _ _)).
  change (len []) with 0. rewrite Z.sub_0_r, Nat2Z.id, insert_insert_eq.
  cbn [app].
  apply (RemovePadding_all_fill_raises _ _ t). apply lookup_insert_eq.
Qed.

(** C5.  For a file of N bytes and a target T >= N, [AddPadding] answers
    T - N; the file then has exactly T bytes, its first N bytes are the old
    ones, and what was appended is 0xFF bytes only; with T = N nothing is
    appended and the files are as before. *)
Theorem AddPadding_reaches_target
    (σ : store) (file_path : string) (B : bytes) (result_size : Z) :
  σ !! file_path = Some B → len B ≤ result_size →
  ∃ (suffix : bytes) (σ' : store),
    AddPadding file_path result_size σ = (Return (result_size - len B), σ')
    ∧ σ' = <[file_path := B ++ suffix]> σ
    ∧ len (B ++ suffix) = result_size
    ∧ take (length B) (B ++ suffix) = B
    ∧ Forall (eq xff) suffix
    ∧ (result_size = len B → suffix = [] ∧ σ' = σ).
Proof.
  intros Hfile Hsize.
  exists (replicate (Z.to_nat (result_size - len B)) xff). eexists.
  split; [by apply AddPadding_existing |].
  split; [done |].
  split; [rewrite len_app, len_replicate; lia |].
  split; [apply take_app_length |].
  split; [apply Forall_replicate_eq |].
  intros ->. rewrite Z.sub_diag. cbn.
  by rewrite app_nil_r, (insert_id _ _ _ Hfile).
Qed.



(** C6 (amended).  The code has no check of the target: for a file of N
    bytes and a target T < N, [AddPadding] raises no error, and the file is
    not cut: it still holds its N bytes. *)
Theorem AddPadding_undersized_no_error
    (σ : store) (file_path : string) (B : bytes) (result_size : Z) :
  σ !! file_path = Some B → result_size < len B →
  raises (AddPadding file_path result_size σ) = false
  ∧ (AddPadding file_path result_size σ).2 !! file_path = Some B.
Proof.
  intros Hfile Hlt. by rewrite (AddPadding_below _ _ _ Hfile _ Hlt).
Qed.




(** C8 (the code departs from it).  The claim: for every buffer, a second
    [RemovePadding] in a row answers 0 and changes nothing.  After a first
    call that returned this is what the code does ([RemovePadding_again]).
    On the one-byte file 0xFF the first call raises [OSError EINVAL] and
    leaves the byte, and so does the second call on the file the first one
    left: it answers no 0. *)
Theorem RemovePadding_twice_fill_only :
  RemovePadding "rom.bin" {[ "rom.bin" := [xff] ]}
  = (Raise (OSError EINVAL), {[ "rom.bin" := [xff] ]})
  ∧ RemovePadding "rom.bin"
      (RemovePadding "rom.bin" {[ "rom.bin" := [xff] ]}).2
    = (Raise (OSError EINVAL), {[ "rom.bin" := [xff] ]}).
Proof. split; vm_compute; reflexivity. Qed.



(** C10.  For a file of N bytes and a target T < N, [AddPadding] raises no
    error: the bytes object it writes, 0xFF repeated T - N times, is empty,
    the files are left as they were, and the answer is T - N, which is
    negative. *)
Theorem AddPadding_undersized
    (σ : store) (file_path : string) (B : bytes) (result_size : Z) :
  σ !! file_path = Some B → result_size < len B →
  bytes_mul [xff] (result_size - len B) = []
  ∧ AddPadding file_path result_size σ = (Return (result_size - len B), σ)
  ∧ result_size - len B < 0.
Proof.
  intros Hfile Hlt. split; [| split; [by apply AddPadding_below | lia]].
  unfold bytes_mul. destruct (Z.leb_spec (result_size - len B) 0); [done | lia].
Qed.


(** ** Further properties of the padding routines *)


(** [AddPadding] on a path that names no file: the append mode creates the
    file when the host allows it, and [open] raises what the host raises
    when it does not. *)
Lemma AddPadding_created (σ : store) (file_path : string) (result_size : Z) :
  σ !! file_path = None → refusal file_path = None →
  AddPadding file_path result_size σ
  = (Return result_size,
     <[file_path := replicate (Z.to_nat result_size) xff]> σ).
Proof.
  intros Hfile Hhost.
  unfold AddPadding. rewrite io_bind_eq. unfold open. rewrite Hfile, Hhost.
  rewrite io_bind_eq. unfold seek. cbn [f_name].
  rewrite (contents_Some _ _ [] (lookup_insert_eq _ _ _)).
  change (len [] + 0 <? 0) with false. cbn iota.
  rewrite io_bind_eq. unfold write, tell. cbn [at_pos f_mode f_name f_pos].
  rewrite (contents_Some _ _ [] (lookup_insert_eq _ _ _)), bytes_mul_single.
  rewrite insert_insert_eq. change (len [] + 0) with 0.
  by rewrite Z.sub_0_r.
Qed.

Lemma AddPadding_refused
    (σ : store) (file_path : string) (result_size : Z) (e : exn) :
  σ !! file_path = None → refusal file_path = Some e →
  AddPadding file_path result_size σ = (Raise e, σ).
Proof.
  intros Hfile Hhost.
  unfold AddPadding. rewrite io_bind_eq. unfold open. by rewrite Hfile, Hhost.
Qed.

(** A call of [AddPadding] that returns has appended to what the file held
    (nothing, for a file it created). *)
Lemma AddPadding_returns_inv
    (σ σ' : store) (file_path : string) (result_size n : Z) :
  AddPadding file_path result_size σ = (Return n, σ') →
  n = result_size - len (contents σ file_path)
  ∧ σ' = <[file_path := contents σ file_path
             ++ replicate (Z.to_nat (result_size - len (contents σ file_path)))
                  xff]> σ.
Proof.
  destruct (σ !! file_path) as [B |] eqn:Hfile.
  - rewrite (contents_Some _ _ _ Hfile), (AddPadding_existing _ _ _ Hfile).
    by intros [= <- <-].
  - rewrite (contents_None _ _ Hfile).
    destruct (refusal file_path) as [e |] eqn:Hhost.
    + by rewrite (AddPadding_refused _ _ _ _ Hfile Hhost).
    + rewrite (AddPadding_created _ _ _ Hfile Hhost).
      intros [= <- <-]. change (len []) with 0. by rewrite Z.sub_0_r.
Qed.

(** The store [RemovePadding] leaves is the old one, or the old one with the
    named file replaced. *)
Lemma RemovePadding_store (σ σ' : store) (file_path : string) (o : outcome Z) :
  RemovePadding file_path σ = (o, σ') →
  σ' = σ ∨ ∃ B' : bytes, σ' = <[file_path := B']> σ.
Proof.
  intros Hrun. destruct (σ !! file_path) as [B |] eqn:Hfile.
  - rewrite (RemovePadding_spec _ _ _ Hfile) in Hrun.
    destruct (decide (strip_fill B = [])); injection Hrun as <- <-; eauto.
  - unfold RemovePadding in Hrun.
    rewrite (RemovePadding_fuel_missing _ _ _ Hfile) in Hrun.
    injection Hrun as <- <-. by left.
Qed.

(** A buffer with a byte that is not a fill byte is not stripped to
    nothing. *)
Lemma strip_fill_content_ne (B : bytes) :
  ¬ Forall (eq xff) B → strip_fill B ≠ [].
Proof. intros Hnot Hnil. by apply Hnot, strip_fill_nil_iff. Qed.

(** X1.  On a path that names no file, [RemovePadding] raises
    [FileNotFoundError] ([OSError ENOENT]) from [open] and creates
    nothing. *)
Theorem RemovePadding_missing_file (σ : store) (file_path : string) :
  σ !! file_path = None →
  RemovePadding file_path σ = (Raise (OSError ENOENT), σ).
Proof.
  intros Hnone. unfold RemovePadding. by apply RemovePadding_fuel_missing.
Qed.





(** X4.  [RemovePadding] touches no file but the one it is given, whether
    it returns or raises. *)
Theorem RemovePadding_other_files
    (σ σ' : store) (file_path other : string) (o : outcome Z) :
  RemovePadding file_path σ = (o, σ') → other ≠ file_path →
  σ' !! other = σ !! other.
Proof.
  intros Hrun Hne.
  destruct (RemovePadding_store _ _ _ _ Hrun) as [-> | [B' ->]]; [done |].
  by rewrite lookup_insert_ne.
Qed.


(** X5.  [AddPadding] touches no file but the one it is given. *)
Theorem AddPadding_other_files
    (σ : store) (file_path other : string) (result_size : Z) :
  other ≠ file_path →
  (AddPadding file_path result_size σ).2 !! other = σ !! other.
Proof.
  intros Hne. destruct (σ !! file_path) as [B |] eqn:Hfile.
  - rewrite (AddPadding_existing _ _ _ Hfile). cbn [snd].
    by rewrite lookup_insert_ne.
  - destruct (refusal file_path) as [e |] eqn:Hhost.
    + by rewrite (AddPadding_refused _ _ _ _ Hfile Hhost).
    + rewrite (AddPadding_created _ _ _ Hfile Hhost). cbn [snd].
      by rewrite lookup_insert_ne.
Qed.


(** X6.  On every file that holds a byte other than 0xFF, [RemovePadding]
    returns, and does what it is for: the file was some bytes [kept] that do
    not end with 0xFF followed by [k] bytes 0xFF, the call answers [k] and
    the file is left holding [kept]. *)
Theorem RemovePadding_counts_and_cuts
    (σ : store) (file_path : string) (B : bytes) :
  σ !! file_path = Some B → ¬ Forall (eq xff) B →
  ∃ (kept : bytes) (k : nat),
    B = kept ++ replicate k xff
    ∧ kept ≠ []
    ∧ last kept ≠ Some xff
    ∧ RemovePadding file_path σ
      = (Return (Z.of_nat k), <[file_path := kept]> σ).
Proof.
  intros Hfile Hcontent.
  exists (strip_fill B), (trailing_fill B).
  split; [apply strip_fill_split |].
  split; [by apply strip_fill_content_ne |].
  split; [apply strip_fill_last |].
  rewrite (RemovePadding_spec _ _ _ Hfile).
  destruct (decide (strip_fill B = [])) as [Hnil | _]; [| done].
  by apply strip_fill_content_ne in Hcontent.
Qed.


(** X7.  A file whose last byte is not 0xFF has no padding: [RemovePadding]
    answers 0 and leaves every file as it was. *)
Theorem RemovePadding_no_padding
    (σ : store) (file_path : string) (B : bytes) (x : byte) :
  σ !! file_path = Some B → last B = Some x → x ≠ xff →
  RemovePadding file_path σ = (Return 0, σ).
Proof.
  intros Hfile Hlast Hx. rewrite (RemovePadding_spec _ _ _ Hfile).
  destruct (strip_fill_no_fill _ _ Hlast Hx) as [Hcount Hkept].
  rewrite Hcount, Hkept, (insert_id _ _ _ Hfile).
  destruct (decide (B = [])) as [-> | _]; [done | done].
Qed.


(** X8.  The [while True] loop of [RemovePadding] ends: on a file of N
    bytes it takes at most N + 1 turns.  Any bound above N gives the result
    of the bound N + 1, and that result is never the bound running out. *)
Theorem RemovePadding_loop_ends
    (σ : store) (file_path : string) (fuel : nat) :
  (length (contents σ file_path) < fuel)%nat →
  RemovePadding_fuel fuel file_path σ = RemovePadding file_path σ
  ∧ (RemovePadding_fuel fuel file_path σ).1 ≠ OutOfFuel.
Proof.
  intros Hfuel. rewrite (RemovePadding_fuel_enough _ _ _ Hfuel).
  split; [done | apply RemovePadding_never_out_of_fuel].
Qed.


(** X9.  The count [RemovePadding] returns accounts for the bytes of the
    file: on a file of N bytes it is at least 0 and below N, and the size of
    the file afterwards ([os.path.getsize]) is N less the count, so at least
    one byte is always left. *)
Theorem RemovePadding_size_after
    (σ σ' : store) (file_path : string) (B : bytes) (n : Z) :
  σ !! file_path = Some B →
  RemovePadding file_path σ = (Return n, σ') →
  0 ≤ n < len B
  ∧ os_path_getsize file_path σ' = (Return (len B - n), σ').
Proof.
  intros Hfile Hret.
  destruct (RemovePadding_returns_inv _ _ _ _ _ Hfile Hret) as (-> & -> & Hne).
  pose proof (f_equal len (strip_fill_split B)) as Hlen.
  rewrite len_app, len_replicate in Hlen.
  assert (0 < len (strip_fill B)) as Hpos.
  { unfold len. destruct (strip_fill B); [done | cbn; lia]. }
  split; [lia |].
  unfold os_path_getsize. rewrite lookup_insert_eq. do 2 f_equal. lia.
Qed.


(** X10.  Padding a file back to the size it had before [RemovePadding]
    undoes the removal: when [RemovePadding] returns [n] on a file of N
    bytes, [AddPadding] with target N then returns the same [n] and the
    files are exactly as before the removal. *)
Theorem RemovePadding_AddPadding
    (σ σ' : store) (file_path : string) (B : bytes) (n : Z) :
  σ !! file_path = Some B →
  RemovePadding file_path σ = (Return n, σ') →
  AddPadding file_path (len B) σ' = (Return n, σ).
Proof.
  intros Hfile Hret.
  destruct (RemovePadding_returns_inv _ _ _ _ _ Hfile Hret) as (-> & -> & _).
  rewrite (AddPadding_existing _ _ (strip_fill B)) by apply lookup_insert_eq.
  pose proof (f_equal len (strip_fill_split B)) as Hlen.
  rewrite len_app, len_replicate in Hlen.
  replace (len B - len (strip_fill B)) with (Z.of_nat (trailing_fill B)) by lia.
  rewrite Nat2Z.id, <- strip_fill_split, insert_insert_eq.
  by rewrite (insert_id _ _ _ Hfile).
Qed.


(** X11.  Asking [AddPadding] for the same target a second time changes
    nothing: when a first call returned [n], the second call leaves the
    files as the first one left them and returns 0, or [n] again when [n]
    was negative (the file was already longer than the target). *)
Theorem AddPadding_again
    (σ σ' : store) (file_path : string) (result_size n : Z) :
  AddPadding file_path result_size σ = (Return n, σ') →
  AddPadding file_path result_size σ' = (Return (Z.min n 0), σ').
Proof.
  intros Hret.
  destruct (AddPadding_returns_inv _ _ _ _ _ Hret) as [-> ->].
  set (C := contents σ file_path).
  rewrite (AddPadding_existing _ _ _ (lookup_insert_eq _ _ _)).
  rewrite len_app, len_replicate, insert_insert_eq.
  replace (Z.to_nat
             (result_size - (len C + Z.of_nat (Z.to_nat (result_size - len C)))))
    with O by lia.
  cbn [replicate]. rewrite app_nil_r. do 2 f_equal. lia.
Qed.


(** X12.  Padding in two steps is padding in one: for a file of N bytes and
    targets N <= T1 <= T2, [AddPadding] to T1 and then to T2 leaves the
    files as [AddPadding] to T2 alone does, and the two counts returned,
    T1 - N and T2 - T1, add up to the T2 - N of the single call. *)
Theorem AddPadding_in_steps
    (σ : store) (file_path : string) (B : bytes) (T1 T2 : Z) :
  σ !! file_path = Some B → len B ≤ T1 → T1 ≤ T2 →
  AddPadding file_path T1 σ
  = (Return (T1 - len B), (AddPadding file_path T1 σ).2)
  ∧ AddPadding file_path T2 (AddPadding file_path T1 σ).2
    = (Return (T2 - T1), (AddPadding file_path T2 σ).2)
  ∧ AddPadding file_path T2 σ
    = (Return ((T1 - len B) + (T2 - T1)), (AddPadding file_path T2 σ).2).
Proof.
  intros Hfile H1 H2.
  rewrite !(AddPadding_existing _ _ _ Hfile). cbn [snd].
  split; [done |]. split; [| do 2 f_equal; lia].
  rewrite (AddPadding_existing _ _ _ (lookup_insert_eq _ _ _)).
  rewrite len_app, len_replicate, insert_insert_eq, <- app_assoc.
  rewrite <- replicate_add.
  replace (Z.to_nat (T1 - len B)
           + Z.to_nat (T2 - (len B + Z.of_nat (Z.to_nat (T1 - len B)))))%nat
    with (Z.to_nat (T2 - len B)) by lia.
  do 2 f_equal. lia.
Qed.


(** X13.  In the loop of [RemovePadding] the test [byte == b''], commented
    "Reached the beginning of the file", never holds: [padding_size] is
    never negative, and whenever the seek to [-1 - padding_size] from the
    end succeeds, the [read(1)] after it gives exactly one byte.  Reaching
    the start of the file shows as the exception of the seek instead. *)
Theorem read_after_seek_is_one_byte
    (σ σ' : store) (file file' : file_obj) (padding_size : Z) :
  0 ≤ padding_size →
  seek file (-1 - padding_size) SEEK_END σ = (Return file', σ') →
  ∃ (b : byte) (file'' : file_obj),
    read file' 1 σ' = (Return ([b], file''), σ').
Proof.
  intros Hp. unfold seek.
  set (C := contents σ (f_name file)).
  destruct (Z.ltb_spec (len C + (-1 - padding_size)) 0) as [| Hpos]; [done |].
  intros [= <- <-]. unfold read. cbn [at_pos f_name f_pos]. fold C.
  destruct (lookup_lt_is_Some_2 C (Z.to_nat (len C + (-1 - padding_size))))
    as [b Hb]; [unfold len in *; lia |].
  change (Z.to_nat 1) with 1%nat. rewrite (take_1_drop _ _ _ Hb). eauto.
Qed.

(** X2.  On a path that names no file, [AddPadding] does what the host does
    with a file to create.  When the system creates it, the call returns the
    target as the number of bytes added and the new file holds that many
    fill bytes (none for a target below one).  When the system refuses, the
    exception of [open] comes out and no file is made.  The empty path is
    always refused, with [FileNotFoundError]. *)
Theorem AddPadding_missing_file
    (σ : store) (file_path : string) (result_size : Z) :
  σ !! file_path = None →
  match refusal file_path with
  | None =>
      AddPadding file_path result_size σ
      = (Return result_size,
         <[file_path := replicate (Z.to_nat result_size) xff]> σ)
  | Some e => AddPadding file_path result_size σ = (Raise e, σ)
  end
  ∧ (file_path = "" →
     AddPadding file_path result_size σ = (Raise (OSError ENOENT), σ)).
Proof.
  intros Hfile. split.
  - destruct (refusal file_path) as [e |] eqn:Hhost.
    + by apply AddPadding_refused.
    + by apply AddPadding_created.
  - intros ->. apply AddPadding_refused; [done | apply refusal_empty].
Qed.

(** C7 (the code departs from it).  The claim: after [RemovePadding] the
    last byte of the buffer, if any is left, is not 0xFF, and a buffer that
    was fill bytes only has become empty.  On a file of N >= 1 bytes, all
    0xFF, the call raises from the seek before the start of the file and
    the N bytes are still there: the buffer is not empty and its last byte
    is 0xFF.  (When the call returns, the file left is not empty and does
    not end with 0xFF: [RemovePadding_spec], [strip_fill_last].) *)
Theorem RemovePadding_fill_only_last_byte
    (σ : store) (file_path : string) (n : nat) :
  raises (RemovePadding file_path (<[file_path := replicate (S n) xff]> σ))
  = true
  ∧ (RemovePadding file_path (<[file_path := replicate (S n) xff]> σ)).2
      !! file_path = Some (replicate (S n) xff)
  ∧ last (replicate (S n) xff) = Some xff.
Proof.
  rewrite (RemovePadding_all_fill_raises _ _ (S n)) by apply lookup_insert_eq.
  split; [done |]. split; [apply lookup_insert_eq |].
  by rewrite replicate_S_end, last_snoc.
Qed.

(** ** Errors of [RemovePadding], whatever the file primitives do *)

Section any_primitives_facts.
Variable open_ : string → mode → io file_obj.
Variable seek_ : file_obj → Z → whence → io file_obj.
Variable read_ : file_obj → Z → io (bytes * file_obj).
Variable getsize_ : string → io Z.
Variable truncate_ : string → Z → io unit.

(** One turn of the loop. *)
Lemma RemovePadding_loop_on_turn fuel file padding_size (σ : store) :
  RemovePadding_loop_on seek_ read_ (S fuel) file padding_size σ =
  match seek_ file (-1 - padding_size) SEEK_END σ with
  | (Return file1, σ1) =>
      match read_ file1 1 σ1 with
      | (Return (byte, file2), σ2) =>
          if decide (byte = []) then (Return padding_size, σ2)
          else if decide (byte = [xff]) then
            RemovePadding_loop_on seek_ read_ fuel file2 (padding_size + 1) σ2
          else (Return padding_size, σ2)
      | (Raise e, σ2) => (Raise e, σ2)
      | (OutOfFuel, σ2) => (OutOfFuel, σ2)
      end
  | (Raise e, σ1) => (Raise e, σ1)
  | (OutOfFuel, σ1) => (OutOfFuel, σ1)
  end.
Proof.
  cbn [RemovePadding_loop_on]. rewrite io_bind_eq.
  destruct (seek_ file (-1 - padding_size) SEEK_END σ) as [[file1 | e |] σ1];
    [| done | done].
  rewrite io_bind_eq.
  destruct (read_ file1 1 σ1) as [[[byte file2] | e |] σ2]; [| done | done].
  by repeat case_decide.
Qed.

(** The scan raises exactly when one of its calls does, with that call's
    exception and the files that call left. *)
Lemma scan_call_raises_iff fuel file padding_size (σ σ' : store) (e : exn) :
  scan_call_raises seek_ read_ fuel file padding_size σ e σ'
  ↔ RemovePadding_loop_on seek_ read_ fuel file padding_size σ = (Raise e, σ').
Proof.
  split.
  - induction 1 as [fuel file p σ e σ' Hseek
                   | fuel file p σ file1 σ1 e σ' Hseek Hread
                   | fuel file p σ file1 σ1 file2 σ2 e σ' Hseek Hread _ IH];
      rewrite RemovePadding_loop_on_turn, Hseek; [done | by rewrite Hread |].
    rewrite Hread. destruct (decide ([xff] = [])) as [? | _]; [done |].
    by destruct (decide ([xff] = [xff])).
  - revert file padding_size σ.
    induction fuel as [| fuel IH]; intros file p σ; [done |].
    rewrite RemovePadding_loop_on_turn.
    destruct (seek_ file (-1 - p) SEEK_END σ) as [[file1 | e1 |] σ1] eqn:Hseek;
      [| intros [= <- <-]; by apply seek_raises | done].
    destruct (read_ file1 1 σ1) as [[[byte file2] | e2 |] σ2] eqn:Hread;
      [| intros [= <- <-]; by eapply read_raises | done].
    destruct (decide (byte = [])) as [? | _]; [done |].
    destruct (decide (byte = [xff])) as [-> | _]; [| done].
    intros Hlater. eapply later_turn_raises; [done | done | by apply IH].
Qed.

(** With primitives that only read, the scan leaves the files alone. *)
Lemma RemovePadding_loop_on_store fuel file padding_size (σ σ' : store) o :
  (∀ file offset w σ o σ1, seek_ file offset w σ = (o, σ1) → σ1 = σ) →
  (∀ file n σ o σ1, read_ file n σ = (o, σ1) → σ1 = σ) →
  RemovePadding_loop_on seek_ read_ fuel file padding_size σ = (o, σ') →
  σ' = σ.
Proof.
  intros Hseek Hread. revert file padding_size σ.
  induction fuel as [| fuel IH]; intros file p σ.
  - cbn. unfold out_of_fuel. by intros [= _ <-].
  - rewrite RemovePadding_loop_on_turn.
    destruct (seek_ file (-1 - p) SEEK_END σ) as [r1 σ1] eqn:H1.
    apply Hseek in H1 as ->.
    destruct r1 as [file1 | e1 |]; [| by intros [= _ <-] | by intros [= _ <-]].
    destruct (read_ file1 1 σ) as [r2 σ2] eqn:H2.
    apply Hread in H2 as ->.
    destruct r2 as [[byte file2] | e2 |];
      [| by intros [= _ <-] | by intros [= _ <-]].
    repeat case_decide; try (by intros [= _ <-]). apply IH.
Qed.

(** C9.  No error of a filesystem call is swallowed by [RemovePadding], and
    none is made up: whatever [open], [seek], [read], [os.path.getsize] and
    [os.truncate] do, the call ends with the exception [e] and the files
    [σ'] exactly when one of the calls it makes raises [e] and leaves [σ'],
    the calls before it having returned.  And when the four calls that come
    before the truncation only read, a call that ends with an exception
    leaves the files as they were, unless the exception is the one of
    [os.truncate] itself, made on the files as they were; the files are
    then what that call left. *)
Theorem RemovePadding_on_error
    (fuel : nat) (file_path : string) (σ σ' : store) (e : exn) :
  (call_raises open_ seek_ read_ getsize_ truncate_ fuel file_path σ e σ'
   ↔ RemovePadding_on open_ seek_ read_ getsize_ truncate_ fuel file_path σ
     = (Raise e, σ'))
  ∧ ((∀ path σ o σ1, open_ path RB σ = (o, σ1) → σ1 = σ) →
     (∀ file offset w σ o σ1, seek_ file offset w σ = (o, σ1) → σ1 = σ) →
     (∀ file n σ o σ1, read_ file n σ = (o, σ1) → σ1 = σ) →
     (∀ path σ o σ1, getsize_ path σ = (o, σ1) → σ1 = σ) →
     RemovePadding_on open_ seek_ read_ getsize_ truncate_ fuel file_path σ
     = (Raise e, σ') →
     σ' = σ
     ∨ ∃ length : Z, truncate_ file_path length σ = (Raise e, σ')).
Proof.
  assert (∀ σ' e,
    RemovePadding_on open_ seek_ read_ getsize_ truncate_ fuel file_path σ
    = (Raise e, σ') →
    call_raises open_ seek_ read_ getsize_ truncate_ fuel file_path σ e σ')
    as Hcalls.
  { clear σ' e. intros σ' e. unfold RemovePadding_on. rewrite io_bind_eq.
    destruct (open_ file_path RB σ) as [[file | e0 |] σ1] eqn:Hopen;
      [| intros [= <- <-]; by apply open_raises | done].
    rewrite io_bind_eq.
    destruct (RemovePadding_loop_on seek_ read_ fuel file 0 σ1)
      as [[p | e1 |] σ2] eqn:Hscan;
      [| intros [= <- <-]; eapply scan_raises;
         [done | by apply scan_call_raises_iff]
       | done].
    rewrite io_bind_eq.
    destruct (getsize_ file_path σ2) as [[size | e2 |] σ3] eqn:Hsize;
      [| intros [= <- <-]; by eapply getsize_raises | done].
    rewrite io_bind_eq.
    destruct (truncate_ file_path (size - p) σ3) as [[[] | e3 |] σ4] eqn:Hcut;
      [done | | done].
    intros [= <- <-]. by eapply truncate_raises. }
  split; [split; [| apply Hcalls] |].
  - intros [Hopen | file σ1 Hopen Hscan | file σ1 p σ2 Hopen Hscan Hsize
           | file σ1 p σ2 size σ3 Hopen Hscan Hsize Hcut];
      unfold RemovePadding_on; rewrite io_bind_eq, Hopen; [done | | |].
    + apply scan_call_raises_iff in Hscan. by rewrite io_bind_eq, Hscan.
    + by rewrite io_bind_eq, Hscan, io_bind_eq, Hsize.
    + by rewrite io_bind_eq, Hscan, io_bind_eq, Hsize, io_bind_eq, Hcut.
  - intros Ho Hs Hr Hg Hraise.
    destruct (Hcalls _ _ Hraise)
      as [Hopen | file σ1 Hopen Hscan | file σ1 p σ2 Hopen Hscan Hsize
         | file σ1 p σ2 size σ3 Hopen Hscan Hsize Hcut].
    + left. by apply Ho in Hopen.
    + left. apply Ho in Hopen as ->. apply scan_call_raises_iff in Hscan.
      by apply (RemovePadding_loop_on_store _ _ _ _ _ _ Hs Hr) in Hscan.
    + left. apply Ho in Hopen as ->.
      apply (RemovePadding_loop_on_store _ _ _ _ _ _ Hs Hr) in Hscan as ->.
      by apply Hg in Hsize.
    + right. apply Ho in Hopen as ->.
      apply (RemovePadding_loop_on_store _ _ _ _ _ _ Hs Hr) in Hscan as ->.
      apply Hg in Hsize as ->. by exists (size - p).
Qed.
End any_primitives_facts.

(** The primitives of the model that come before the truncation only
    read. *)
Lemma open_RB_store (path : string) (σ σ1 : store) (o : outcome file_obj) :
  open path RB σ = (o, σ1) → σ1 = σ.
Proof. unfold open. destruct (σ !! path); by intros [= _ <-]. Qed.

Lemma seek_store file offset w (σ σ1 : store) (o : outcome file_obj) :
  seek file offset w σ = (o, σ1) → σ1 = σ.
Proof. unfold seek. case_match; by intros [= _ <-]. Qed.

Lemma read_store file n (σ σ1 : store) (o : outcome (bytes * file_obj)) :
  read file n σ = (o, σ1) → σ1 = σ.
Proof. unfold read. by intros [= _ <-]. Qed.

Lemma os_path_getsize_store (path : string) (σ σ1 : store) (o : outcome Z) :
  os_path_getsize path σ = (o, σ1) → σ1 = σ.
Proof. unfold os_path_getsize. destruct (σ !! path); by intros [= _ <-]. Qed.

(** [RemovePadding] is this code run on the primitives of the model. *)
Lemma RemovePadding_loop_on_model fuel file padding_size (σ : store) :
  RemovePadding_loop_on seek read fuel file padding_size σ
  = RemovePadding_loop fuel file padding_size σ.
Proof.
  revert file padding_size σ.
  induction fuel as [| fuel IH]; intros file p σ; [done |].
  rewrite RemovePadding_loop_on_turn. cbn [RemovePadding_loop].
  rewrite io_bind_eq.
  destruct (seek file (-1 - p) SEEK_END σ) as [[file1 | e1 |] σ1];
    [| done | done].
  rewrite io_bind_eq.
  destruct (read file1 1 σ1) as [[[byte file2] | e2 |] σ2]; [| done | done].
  by repeat case_decide.
Qed.

Lemma RemovePadding_on_model (fuel : nat) (file_path : string) (σ : store) :
  RemovePadding_on open seek read os_path_getsize os_truncate fuel file_path σ
  = RemovePadding_fuel fuel file_path σ.
Proof.
  unfold RemovePadding_on, RemovePadding_fuel. rewrite !io_bind_eq.
  destruct (open file_path RB σ) as [[file | e |] σ1]; [| done | done].
  by rewrite !io_bind_eq, RemovePadding_loop_on_model.
Qed.

(** A dump that may not be written: [os.truncate] raises [PermissionError],
    which comes out of [RemovePadding] with the file as it was. *)
Example RemovePadding_on_read_only_file :
  RemovePadding_on open seek read os_path_getsize
    (λ _ _ σ, (Raise (OSError EACCES), σ)) 4 "rom.bin"
    {[ "rom.bin" := [x01; xff] ]}
  = (Raise (OSError EACCES), {[ "rom.bin" := [x01; xff] ]}).
Proof. vm_compute. reflexivity. Qed.

End host_facts.

(** ** The properties above at work, on a host that creates every file *)

#[local] Existing Instance willing_host.

(** C6, as the specification states it, fails on the code: with a target of
    1 byte for a file of 3 bytes [AddPadding] raises nothing; it returns -2
    and the 3 bytes are still there. *)
Lemma AddPadding_undersized_counterexample :
  raises (AddPadding "rom.bin" 1 {[ "rom.bin" := [x01; x02; x03] ]}) = false
  ∧ AddPadding "rom.bin" 1 {[ "rom.bin" := [x01; x02; x03] ]}
    = (Return (-2), {[ "rom.bin" := [x01; x02; x03] ]}).
Proof. split; vm_compute; reflexivity. Qed.

Lemma AddPadding_reaches_target_witness :
  ({[ "rom.bin" := [x01; x02] ]} : store) !! "rom.bin" = Some [x01; x02]
  ∧ len [x01; x02] ≤ 5
  ∧ ∃ (suffix : bytes) (σ' : store),
      AddPadding "rom.bin" 5 {[ "rom.bin" := [x01; x02] ]}
      = (Return (5 - len [x01; x02]), σ')
      ∧ σ' = <[ "rom.bin" := [x01; x02] ++ suffix]> {[ "rom.bin" := [x01; x02] ]}
      ∧ len ([x01; x02] ++ suffix) = 5
      ∧ take (length [x01; x02]) ([x01; x02] ++ suffix) = [x01; x02]
      ∧ Forall (eq xff) suffix
      ∧ (5 = len [x01; x02] →
         suffix = [] ∧ σ' = {[ "rom.bin" := [x01; x02] ]}).
Proof.
  split; [reflexivity |]. split; [unfold len; simpl; lia |].
  apply (AddPadding_reaches_target {[ "rom.bin" := [x01; x02] ]} "rom.bin"
           [x01; x02] 5); [reflexivity | unfold len; simpl; lia].
Defined.

Lemma AddPadding_undersized_no_error_witness :
  ({[ "rom.bin" := [x01; x02; x03] ]} : store) !! "rom.bin"
  = Some [x01; x02; x03]
  ∧ 1 < len [x01; x02; x03]
  ∧ raises (AddPadding "rom.bin" 1 {[ "rom.bin" := [x01; x02; x03] ]}) = false
  ∧ (AddPadding "rom.bin" 1 {[ "rom.bin" := [x01; x02; x03] ]}).2 !! "rom.bin"
    = Some [x01; x02; x03].
Proof.
  split; [reflexivity |]. split; [unfold len; simpl; lia |].
  apply (AddPadding_undersized_no_error {[ "rom.bin" := [x01; x02; x03] ]}
           "rom.bin" [x01; x02; x03] 1); [reflexivity | unfold len; simpl; lia].
Defined.

Lemma AddPadding_undersized_witness :
  ({[ "rom.bin" := [x0a; x0b; x0c; x0d] ]} : store) !! "rom.bin"
  = Some [x0a; x0b; x0c; x0d]
  ∧ 1 < len [x0a; x0b; x0c; x0d]
  ∧ bytes_mul [xff] (1 - len [x0a; x0b; x0c; x0d]) = []
  ∧ AddPadding "rom.bin" 1 {[ "rom.bin" := [x0a; x0b; x0c; x0d] ]}
    = (Return (1 - len [x0a; x0b; x0c; x0d]),
       {[ "rom.bin" := [x0a; x0b; x0c; x0d] ]})
  ∧ 1 - len [x0a; x0b; x0c; x0d] < 0.
Proof.
  split; [reflexivity |]. split; [unfold len; simpl; lia |].
  apply (AddPadding_undersized {[ "rom.bin" := [x0a; x0b; x0c; x0d] ]}
           "rom.bin" [x0a; x0b; x0c; x0d] 1);
    [reflexivity | unfold len; simpl; lia].
Defined.

Lemma RemovePadding_missing_file_witness :
  ({[ "rom.bin" := [x01] ]} : store) !! "dump.bin" = None
  ∧ RemovePadding "dump.bin" {[ "rom.bin" := [x01] ]}
    = (Raise (OSError ENOENT), {[ "rom.bin" := [x01] ]}).
Proof.
  split; [reflexivity |].
  apply (RemovePadding_missing_file {[ "rom.bin" := [x01] ]} "dump.bin").
  reflexivity.
Defined.

Lemma RemovePadding_other_files_witness :
  RemovePadding "rom.bin" {[ "rom.bin" := [x01; xff]; "bak.bin" := [xff] ]}
  = (Return 1, {[ "rom.bin" := [x01]; "bak.bin" := [xff] ]})
  ∧ "bak.bin" ≠ "rom.bin"
  ∧ ({[ "rom.bin" := [x01]; "bak.bin" := [xff] ]} : store) !! "bak.bin"
    = ({[ "rom.bin" := [x01; xff]; "bak.bin" := [xff] ]} : store) !! "bak.bin".
Proof.
  split; [vm_compute; reflexivity |]. split; [discriminate |].
  apply (RemovePadding_other_files
           {[ "rom.bin" := [x01; xff]; "bak.bin" := [xff] ]}
           {[ "rom.bin" := [x01]; "bak.bin" := [xff] ]}
           "rom.bin" "bak.bin" (Return 1));
    [vm_compute; reflexivity | discriminate].
Defined.

Lemma AddPadding_other_files_witness :
  "orig.bin" ≠ "copy.bin"
  ∧ (AddPadding "copy.bin" 4
       {[ "orig.bin" := [x01; x02]; "copy.bin" := [x01; x02] ]}).2 !! "orig.bin"
    = ({[ "orig.bin" := [x01; x02]; "copy.bin" := [x01; x02] ]} : store)
        !! "orig.bin".
Proof.
  split; [discriminate |].
  apply (AddPadding_other_files
           {[ "orig.bin" := [x01; x02]; "copy.bin" := [x01; x02] ]}
           "copy.bin" "orig.bin" 4).
  discriminate.
Defined.

Lemma RemovePadding_counts_and_cuts_witness :
  ({[ "rom.bin" := [xff; x10; xff; xff] ]} : store) !! "rom.bin"
  = Some [xff; x10; xff; xff]
  ∧ ¬ Forall (eq xff) [xff; x10; xff; xff]
  ∧ ∃ (kept : bytes) (k : nat),
      [xff; x10; xff; xff] = kept ++ replicate k xff
      ∧ kept ≠ []
      ∧ last kept ≠ Some xff
      ∧ RemovePadding "rom.bin" {[ "rom.bin" := [xff; x10; xff; xff] ]}
        = (Return (Z.of_nat k),
           <[ "rom.bin" := kept]> {[ "rom.bin" := [xff; x10; xff; xff] ]}).
Proof.
  assert (¬ Forall (eq xff) [xff; x10; xff; xff]) as Hcontent.
  { intros HF. inversion HF as [| ? ? _ HF']. inversion HF'. discriminate. }
  split; [reflexivity |]. split; [exact Hcontent |].
  apply (RemovePadding_counts_and_cuts {[ "rom.bin" := [xff; x10; xff; xff] ]}
           "rom.bin" [xff; x10; xff; xff]); [reflexivity | exact Hcontent].
Defined.

Lemma RemovePadding_no_padding_witness :
  ({[ "rom.bin" := [xff; xff; x00] ]} : store) !! "rom.bin"
  = Some [xff; xff; x00]
  ∧ last [xff; xff; x00] = Some x00
  ∧ x00 ≠ xff
  ∧ RemovePadding "rom.bin" {[ "rom.bin" := [xff; xff; x00] ]}
    = (Return 0, {[ "rom.bin" := [xff; xff; x00] ]}).
Proof.
  split; [reflexivity |]. split; [reflexivity |]. split; [discriminate |].
  apply (RemovePadding_no_padding {[ "rom.bin" := [xff; xff; x00] ]}
           "rom.bin" [xff; xff; x00] x00);
    [reflexivity | reflexivity | discriminate].
Defined.

Lemma RemovePadding_loop_ends_witness :
  (length (contents {[ "rom.bin" := [x01; xff; xff] ]} "rom.bin") < 9)%nat
  ∧ RemovePadding_fuel 9 "rom.bin" {[ "rom.bin" := [x01; xff; xff] ]}
    = RemovePadding "rom.bin" {[ "rom.bin" := [x01; xff; xff] ]}
  ∧ (RemovePadding_fuel 9 "rom.bin" {[ "rom.bin" := [x01; xff; xff] ]}).1
    ≠ OutOfFuel.
Proof.
  split; [vm_compute; lia |].
  apply (RemovePadding_loop_ends {[ "rom.bin" := [x01; xff; xff] ]} "rom.bin" 9).
  vm_compute; lia.
Defined.

Lemma RemovePadding_size_after_witness :
  ({[ "rom.bin" := [x01; x02; xff; xff; xff] ]} : store) !! "rom.bin"
  = Some [x01; x02; xff; xff; xff]
  ∧ RemovePadding "rom.bin" {[ "rom.bin" := [x01; x02; xff; xff; xff] ]}
    = (Return 3, {[ "rom.bin" := [x01; x02] ]})
  ∧ 0 ≤ 3 < len [x01; x02; xff; xff; xff]
  ∧ os_path_getsize "rom.bin" {[ "rom.bin" := [x01; x02] ]}
    = (Return (len [x01; x02; xff; xff; xff] - 3), {[ "rom.bin" := [x01; x02] ]}).
Proof.
  split; [reflexivity |]. split; [vm_compute; reflexivity |].
  apply (RemovePadding_size_after {[ "rom.bin" := [x01; x02; xff; xff; xff] ]}
           {[ "rom.bin" := [x01; x02] ]} "rom.bin" [x01; x02; xff; xff; xff] 3);
    [reflexivity | vm_compute; reflexivity].
Defined.

Lemma RemovePadding_AddPadding_witness :
  ({[ "rom.bin" := [x01; x02; xff; xff; xff] ]} : store) !! "rom.bin"
  = Some [x01; x02; xff; xff; xff]
  ∧ RemovePadding "rom.bin" {[ "rom.bin" := [x01; x02; xff; xff; xff] ]}
    = (Return 3, {[ "rom.bin" := [x01; x02] ]})
  ∧ AddPadding "rom.bin" (len [x01; x02; xff; xff; xff])
      {[ "rom.bin" := [x01; x02] ]}
    = (Return 3, {[ "rom.bin" := [x01; x02; xff; xff; xff] ]}).
Proof.
  split; [reflexivity |]. split; [vm_compute; reflexivity |].
  apply (RemovePadding_AddPadding {[ "rom.bin" := [x01; x02; xff; xff; xff] ]}
           {[ "rom.bin" := [x01; x02] ]} "rom.bin" [x01; x02; xff; xff; xff] 3);
    [reflexivity | vm_compute; reflexivity].
Defined.

Lemma AddPadding_again_witness :
  AddPadding "rom.bin" 4 {[ "rom.bin" := [x01; x02] ]}
  = (Return 2, {[ "rom.bin" := [x01; x02; xff; xff] ]})
  ∧ AddPadding "rom.bin" 4 {[ "rom.bin" := [x01; x02; xff; xff] ]}
    = (Return (Z.min 2 0), {[ "rom.bin" := [x01; x02; xff; xff] ]}).
Proof.
  split; [vm_compute; reflexivity |].
  apply (AddPadding_again {[ "rom.bin" := [x01; x02] ]}
           {[ "rom.bin" := [x01; x02; xff; xff] ]} "rom.bin" 4 2).
  vm_compute; reflexivity.
Defined.

Lemma AddPadding_in_steps_witness :
  ({[ "rom.bin" := [x01] ]} : store) !! "rom.bin" = Some [x01]
  ∧ len [x01] ≤ 2 ∧ 2 ≤ 4
  ∧ AddPadding "rom.bin" 2 {[ "rom.bin" := [x01] ]}
    = (Return (2 - len [x01]),
       (AddPadding "rom.bin" 2 {[ "rom.bin" := [x01] ]}).2)
  ∧ AddPadding "rom.bin" 4 (AddPadding "rom.bin" 2 {[ "rom.bin" := [x01] ]}).2
    = (Return (4 - 2), (AddPadding "rom.bin" 4 {[ "rom.bin" := [x01] ]}).2)
  ∧ AddPadding "rom.bin" 4 {[ "rom.bin" := [x01] ]}
    = (Return ((2 - len [x01]) + (4 - 2)),
       (AddPadding "rom.bin" 4 {[ "rom.bin" := [x01] ]}).2).
Proof.
  split; [reflexivity |]. split; [unfold len; simpl; lia |]. split; [lia |].
  apply (AddPadding_in_steps {[ "rom.bin" := [x01] ]} "rom.bin" [x01] 2 4);
    [reflexivity | unfold len; simpl; lia | lia].
Defined.

Lemma read_after_seek_is_one_byte_witness :
  0 ≤ 1
  ∧ seek {| f_name := "rom.bin"; f_mode := RB; f_pos := 0 |} (-1 - 1) SEEK_END
      {[ "rom.bin" := [x01; xff] ]}
    = (Return {| f_name := "rom.bin"; f_mode := RB; f_pos := 0 |},
       {[ "rom.bin" := [x01; xff] ]})
  ∧ ∃ (b : byte) (file'' : file_obj),
      read {| f_name := "rom.bin"; f_mode := RB; f_pos := 0 |} 1
        {[ "rom.bin" := [x01; xff] ]}
      = (Return ([b], file''), {[ "rom.bin" := [x01; xff] ]}).
Proof.
  split; [lia |]. split; [vm_compute; reflexivity |].
  apply (read_after_seek_is_one_byte {[ "rom.bin" := [x01; xff] ]}
           {[ "rom.bin" := [x01; xff] ]}
           {| f_name := "rom.bin"; f_mode := RB; f_pos := 0 |}
           {| f_name := "rom.bin"; f_mode := RB; f_pos := 0 |} 1);
    [lia | vm_compute; reflexivity].
Defined.

Lemma AddPadding_missing_file_witness :
  ({[ "rom.bin" := [x01] ]} : store) !! "new.bin" = None
  ∧ AddPadding "new.bin" 2 {[ "rom.bin" := [x01] ]}
    = (Return 2,
       <[ "new.bin" := replicate (Z.to_nat 2) xff]> {[ "rom.bin" := [x01] ]})
  ∧ ("new.bin" = "" →
     AddPadding "new.bin" 2 {[ "rom.bin" := [x01] ]}
     = (Raise (OSError ENOENT), {[ "rom.bin" := [x01] ]})).
Proof.
  split; [reflexivity |].
  exact (AddPadding_missing_file {[ "rom.bin" := [x01] ]} "new.bin" 2
           eq_refl).
Defined.

Lemma RemovePadding_on_error_witness :
  RemovePadding_on open seek read os_path_getsize os_truncate 4 "rom.bin"
    {[ "rom.bin" := [xff; xff; xff] ]}
  = (Raise (OSError EINVAL), {[ "rom.bin" := [xff; xff; xff] ]})
  ∧ (({[ "rom.bin" := [xff; xff; xff] ]} : store)
     = {[ "rom.bin" := [xff; xff; xff] ]}
     ∨ ∃ length : Z,
         os_truncate "rom.bin" length {[ "rom.bin" := [xff; xff; xff] ]}
         = (Raise (OSError EINVAL), {[ "rom.bin" := [xff; xff; xff] ]})).
Proof.
  split; [vm_compute; reflexivity |].
  apply (proj2 (RemovePadding_on_error open seek read os_path_getsize
                  os_truncate 4 "rom.bin" {[ "rom.bin" := [xff; xff; xff] ]}
                  {[ "rom.bin" := [xff; xff; xff] ]} (OSError EINVAL))).
  - intros path σ o σ1. apply open_RB_store.
  - intros file offset w σ o σ1. apply seek_store.
  - intros file n σ o σ1. apply read_store.
  - intros path σ o σ1. apply os_path_getsize_store.
  - vm_compute; reflexivity.
Defined.

(** ** Python text: splitting, stripping, replacing *)

Lemma result_bind_eq {A B : Type} (m : result A) (k : A → result B) :
  (m ≫= k) = match m with Ok a => k a | Err e => Err e end.
Proof. reflexivity. Qed.

Lemma startswith_nil (s : str) : startswith s [] = true.
Proof. by destruct s. Qed.

Lemma startswith_single (c q : Z) (s : str) :
  startswith (c :: s) [q] = (c =? q).
Proof. cbn. by rewrite startswith_nil, andb_true_r. Qed.

(** [split] never gives an empty list of pieces. *)
Lemma split_from_ne (sep : str) (skip : nat) (s : str) :
  split_from sep skip s ≠ [].
Proof.
  revert skip. induction s as [| c s IH]; intros skip; [done |].
  cbn [split_from]. destruct skip as [| skip]; [| apply IH].
  destruct (startswith (c :: s) sep); [done |].
  by destruct (split_from sep 0 s).
Qed.

(** Splitting at a one-character separator, character by character. *)
Lemma split_from_single_cons (q c : Z) (s : str) :
  split_from [q] 0 (c :: s) =
  if c =? q then [] :: split_from [q] 0 s
  else match split_from [q] 0 s with
       | piece :: pieces => (c :: piece) :: pieces
       | [] => [[c]]
       end.
Proof. cbn [split_from]. by rewrite startswith_single. Qed.

Lemma split_from_no_sep (q : Z) (s : str) :
  q ∉ s → split_from [q] 0 s = [s].
Proof.
  induction s as [| c s IH]; intros Hq; [done |].
  apply not_elem_of_cons in Hq as [Hne Hq].
  rewrite split_from_single_cons, (IH Hq).
  destruct (Z.eqb_spec c q); [congruence | done].
Qed.

Lemma split_from_app (q : Z) (a b : str) :
  q ∉ a → split_from [q] 0 (a ++ q :: b) = a :: split_from [q] 0 b.
Proof.
  induction a as [| c a IH]; intros Hq.
  - cbn [app]. by rewrite split_from_single_cons, Z.eqb_refl.
  - apply not_elem_of_cons in Hq as [Hne Hq].
    cbn [app]. rewrite split_from_single_cons, (IH Hq).
    destruct (Z.eqb_spec c q); [congruence | done].
Qed.

(** What [lstrip] leaves is the end of the string, from its first character
    that is not white space. *)
Lemma lstrip_suffix (s : str) : lstrip s `suffix_of` s.
Proof.
  induction s as [| c s IH]; [done |]. cbn.
  destruct (isspace c); [by apply suffix_cons_r | done].
Qed.

Lemma lstrip_head (s : str) (c : Z) :
  head (lstrip s) = Some c → isspace c = false.
Proof.
  induction s as [| d s IH]; [done |]. cbn.
  destruct (isspace d) eqn:Hd; [done |]. cbn. congruence.
Qed.

Lemma lstrip_app_nonspace (pre : str) (q : Z) (rest : str) :
  isspace q = false → lstrip (pre ++ q :: rest) = lstrip pre ++ q :: rest.
Proof.
  intros Hq. induction pre as [| c pre IH]; cbn; [by rewrite Hq |].
  by destruct (isspace c).
Qed.

Lemma rstrip_prefix (s : str) : rstrip s `prefix_of` s.
Proof.
  unfold rstrip. apply prefix_suffix_reverse.
  rewrite reverse_involutive. apply lstrip_suffix.
Qed.

Lemma rstrip_app_nonspace (a : str) (q : Z) (post : str) :
  isspace q = false → rstrip (a ++ q :: post) = a ++ q :: rstrip post.
Proof.
  intros Hq. unfold rstrip.
  rewrite reverse_app, reverse_cons, <- app_assoc. cbn [app].
  rewrite (lstrip_app_nonspace _ _ _ Hq).
  rewrite reverse_app, reverse_cons, reverse_involutive, <- app_assoc.
  done.
Qed.

Lemma rstrip_last (s : str) (c : Z) :
  last (rstrip s) = Some c → isspace c = false.
Proof.
  unfold rstrip. rewrite last_reverse. apply lstrip_head.
Qed.

(** A stripped string neither starts nor ends with white space. *)
Lemma strip_ends (s : str) (c : Z) :
  head (strip s) = Some c ∨ last (strip s) = Some c → isspace c = false.
Proof.
  unfold strip. intros [Hhead | Hlast]; [| by apply (rstrip_last (lstrip s))].
  destruct (rstrip_prefix (lstrip s)) as [k Hk].
  apply (lstrip_head s). rewrite Hk.
  by destruct (rstrip (lstrip s)).
Qed.

(** [s.replace(q, "")] for a character [q] takes every [q] out. *)
Lemma replace_single_empty (s : str) (q : Z) :
  replace s [q] [] = filter (λ c, c ≠ q) s.
Proof.
  unfold replace. induction s as [| c s IH]; [done |].
  cbn [replace_from]. rewrite startswith_single. cbn [length Nat.sub app].
  rewrite filter_cons.
  destruct (Z.eqb_spec c q) as [-> | Hne].
  - by destruct (decide (q ≠ q)).
  - destruct (decide (c ≠ q)); [by rewrite IH | done].
Qed.

(** The words [split()] gives are not empty, hold no white space, and are
    made of characters of the string. *)
Lemma split_ws_from_words (word s : str) :
  Forall (λ c, isspace c = false) word →
  Forall (λ w, w ≠ [] ∧ Forall (λ c, isspace c = false ∧ c ∈ word ++ s) w)
    (split_ws_from word s).
Proof.
  revert word. induction s as [| c s IH]; intros word Hword.
  - cbn. destruct word as [| d word]; [done |].
    constructor; [| done]. split; [done |]. rewrite app_nil_r.
    apply Forall_forall. intros x Hx. split; [| done].
    by apply (proj1 (Forall_forall _ _) Hword).
  - cbn [split_ws_from]. destruct (isspace c) eqn:Hc.
    + assert (Forall (λ w, w ≠ [] ∧
               Forall (λ x, isspace x = false ∧ x ∈ word ++ c :: s) w)
               (split_ws_from [] s)) as Hrest.
      { eapply Forall_impl; [apply (IH []); done |].
        intros w [Hne Hw]. split; [done |].
        eapply Forall_impl; [exact Hw |]. intros x [Hx Hin].
        split; [done |]. apply elem_of_app. right. by right. }
      destruct word as [| d word]; [done |].
      constructor; [| done]. split; [done |].
      apply Forall_forall. intros x Hx. split.
      * by apply (proj1 (Forall_forall _ _) Hword).
      * apply elem_of_app. by left.
    + eapply Forall_impl.
      * apply IH. apply Forall_app. split; [done |]. by constructor.
      * intros w [Hne Hw]. split; [done |].
        eapply Forall_impl; [exact Hw |]. intros x [Hx Hin].
        split; [done |]. by rewrite <- app_assoc in Hin.
Qed.

(** [l.index(x)]: the place of the first [x], [ValueError] without one. *)
Lemma index_absent {A : Type} `{EqDecision A} (l : list A) (x : A) :
  x ∉ l → index l x = Err ValueError.
Proof.
  induction l as [| y l IH]; [done |].
  intros [Hne Hl]%not_elem_of_cons. cbn.
  destruct (decide (y = x)); [congruence |]. by rewrite (IH Hl).
Qed.

Lemma index_first {A : Type} `{EqDecision A} (pre post : list A) (x : A) :
  x ∉ pre → index (pre ++ x :: post) x = Ok (Z.of_nat (length pre)).
Proof.
  induction pre as [| y pre IH]; intros Hpre; cbn.
  - by destruct (decide (x = x)).
  - apply not_elem_of_cons in Hpre as [Hne Hpre].
    destruct (decide (y = x)); [congruence |].
    rewrite (IH Hpre), result_bind_eq. f_equal. lia.
Qed.

Lemma getitem_1 {A : Type} (x y : A) (l : list A) :
  getitem (x :: y :: l) 1 = Ok y.
Proof.
  unfold getitem. cbn [length].
  change (1 <? 0) with false. cbn iota.
  destruct (Z.ltb_spec 1 (Z.of_nat (S (S (length l))))) as [_ | Hge]; [done | lia].
Qed.

(** ** [_get_flashrom_version] *)

(** Lines that do not mention flashrom are passed over. *)
Lemma _get_flashrom_version_skip (before rest : list str) :
  Forall (λ l, contains (py "flashrom") l = false) before →
  _get_flashrom_version (before ++ rest) = _get_flashrom_version rest.
Proof.
  induction 1 as [| l before Hl _ IH]; [done |].
  cbn [app _get_flashrom_version]. by rewrite Hl.
Qed.

(** X15.  When no line of the output mentions "flashrom",
    [_get_flashrom_version] raises nothing and returns [None]: the version
    shown is then the text "None". *)
Theorem _get_flashrom_version_no_match (stdout : list str) :
  Forall (λ l, contains (py "flashrom") l = false) stdout →
  _get_flashrom_version stdout = Ok None.
Proof.
  intros Hno. rewrite <- (app_nil_r stdout).
  by rewrite (_get_flashrom_version_skip _ _ Hno).
Qed.

Lemma _get_flashrom_version_no_match_witness :
  Forall (λ l, contains (py "flashrom") l = false)
    [py "command not found" ++ [10]; [10]]
  ∧ _get_flashrom_version [py "command not found" ++ [10]; [10]] = Ok None.
Proof.
  assert (Forall (λ l, contains (py "flashrom") l = false)
            [py "command not found" ++ [10]; [10]]) as Hno.
  { repeat (constructor; [vm_compute; reflexivity |]). constructor. }
  split; [exact Hno |].
  apply (_get_flashrom_version_no_match
           [py "command not found" ++ [10]; [10]] Hno).
Defined.

(** X16.  The version is the second space-separated field of the first line
    that mentions "flashrom", stripped of white space: lines before it that
    do not mention flashrom and all lines after it do not count.  With that
    line being [a], a space, [v] and then nothing or a space and more, [a]
    and [v] without spaces, the answer is [v.strip()]. *)
Theorem _get_flashrom_version_second_field
    (before after : list str) (a v tail : str) :
  Forall (λ l, contains (py "flashrom") l = false) before →
  contains (py "flashrom") (a ++ 32 :: v ++ tail) = true →
  32 ∉ a → 32 ∉ v → (tail = [] ∨ head tail = Some 32) →
  _get_flashrom_version (before ++ (a ++ 32 :: v ++ tail) :: after)
  = Ok (Some (strip v)).
Proof.
  intros Hbefore Hline Ha Hv Htail.
  rewrite (_get_flashrom_version_skip _ _ Hbefore).
  cbn [_get_flashrom_version]. rewrite Hline.
  change (py " ") with [32]. unfold split.
  rewrite (split_from_app _ _ _ Ha). rewrite !result_bind_eq.
  destruct Htail as [-> | Hhead].
  - rewrite app_nil_r, (split_from_no_sep _ _ Hv). by rewrite getitem_1.
  - destruct tail as [| c tail]; [done |]. injection Hhead as ->.
    rewrite (split_from_app _ _ _ Hv). by rewrite getitem_1.
Qed.

Lemma _get_flashrom_version_second_field_witness :
  Forall (λ l, contains (py "flashrom") l = false) [[10]]
  ∧ contains (py "flashrom")
      (py "flashrom" ++ 32 :: py "v1.2" ++ (py " on Linux" ++ [10])) = true
  ∧ (32 ∉ py "flashrom") ∧ (32 ∉ py "v1.2")
  ∧ (py " on Linux" ++ [10] = [] ∨ head (py " on Linux" ++ [10]) = Some 32)
  ∧ _get_flashrom_version
      ([[10]]
       ++ (py "flashrom" ++ 32 :: py "v1.2" ++ (py " on Linux" ++ [10]))
          :: [py "flashrom is free software" ++ [10]])
    = Ok (Some (strip (py "v1.2"))).
Proof.
  assert (Forall (λ l, contains (py "flashrom") l = false) [[10]]) as Hno.
  { constructor; [vm_compute; reflexivity | constructor]. }
  assert (32 ∉ py "flashrom") as Ha by (apply (bool_decide_unpack _); vm_compute; exact I).
  assert (32 ∉ py "v1.2") as Hv by (apply (bool_decide_unpack _); vm_compute; exact I).
  split; [exact Hno |]. split; [vm_compute; reflexivity |].
  split; [exact Ha |]. split; [exact Hv |].
  split; [right; reflexivity |].
  apply (_get_flashrom_version_second_field [[10]]
           [py "flashrom is free software" ++ [10]]
           (py "flashrom") (py "v1.2") (py " on Linux" ++ [10]));
    [exact Hno | vm_compute; reflexivity | exact Ha | exact Hv
    | right; reflexivity].
Defined.

(** X17.  When the first line that mentions "flashrom" has no space in it,
    there is no second field: [_get_flashrom_version] raises [IndexError],
    whatever the lines after it are. *)
Theorem _get_flashrom_version_no_space
    (before after : list str) (line : str) :
  Forall (λ l, contains (py "flashrom") l = false) before →
  contains (py "flashrom") line = true → 32 ∉ line →
  _get_flashrom_version (before ++ line :: after) = Err IndexError.
Proof.
  intros Hbefore Hline Hspace.
  rewrite (_get_flashrom_version_skip _ _ Hbefore).
  cbn [_get_flashrom_version]. rewrite Hline.
  change (py " ") with [32]. unfold split.
  by rewrite (split_from_no_sep _ _ Hspace).
Qed.

Lemma _get_flashrom_version_no_space_witness :
  Forall (λ l, contains (py "flashrom") l = false) []
  ∧ contains (py "flashrom") (py "flashrom:not-found" ++ [10]) = true
  ∧ (32 ∉ py "flashrom:not-found" ++ [10])
  ∧ _get_flashrom_version
      ([] ++ (py "flashrom:not-found" ++ [10]) :: [py "flashrom v1.2 x"])
    = Err IndexError.
Proof.
  assert (32 ∉ py "flashrom:not-found" ++ [10]) as Hspace
    by (apply (bool_decide_unpack _); vm_compute; exact I).
  split; [constructor |]. split; [vm_compute; reflexivity |].
  split; [exact Hspace |].
  apply (_get_flashrom_version_no_space [] [py "flashrom v1.2 x"]
           (py "flashrom:not-found" ++ [10]));
    [constructor | vm_compute; reflexivity | exact Hspace].
Defined.

(** X18.  A version that [_get_flashrom_version] returns has no white space
    at either end: no trailing newline of the line it was read from gets
    into the welcome message. *)
Theorem _get_flashrom_version_stripped
    (stdout : list str) (version : str) (c : Z) :
  _get_flashrom_version stdout = Ok (Some version) →
  head version = Some c ∨ last version = Some c →
  isspace c = false.
Proof.
  induction stdout as [| line stdout IH]; [done |].
  cbn [_get_flashrom_version].
  destruct (contains (py "flashrom") line); [| exact IH].
  rewrite !result_bind_eq.
  destruct (split line (py " ")) as [fields |]; [| done].
  destruct (getitem fields 1) as [field |]; [| done].
  intros [= <-]. apply strip_ends.
Qed.

Lemma _get_flashrom_version_stripped_witness :
  _get_flashrom_version [py "flashrom v1.3" ++ [10]] = Ok (Some (py "v1.3"))
  ∧ (head (py "v1.3") = Some 51 ∨ last (py "v1.3") = Some 51)
  ∧ isspace 51 = false.
Proof.
  split; [vm_compute; reflexivity |]. split; [right; reflexivity |].
  apply (_get_flashrom_version_stripped [py "flashrom v1.3" ++ [10]]
           (py "v1.3") 51); [vm_compute; reflexivity | right; reflexivity].
Defined.

(** ** [OnAutoDetect] *)

Lemma ui_bind_eq {A B : Type} (m : ui A) (k : A → ui B) (self : page) :
  (m ≫= k) self =
  match m self with
  | (Ok a, self') => k a self'
  | (Err e, self') => (Err e, self')
  end.
Proof. reflexivity. Qed.

Lemma page_with_nil (self : page) : page_with self [] [] = self.
Proof. destruct self. unfold page_with. cbn. by rewrite !app_nil_r. Qed.

Lemma page_with_with (self : page) (names names' msgs msgs' : list str) :
  page_with (page_with self names msgs) names' msgs'
  = page_with self (names ++ names') (msgs ++ msgs').
Proof. unfold page_with. cbn. by rewrite !app_assoc. Qed.

(** What is left of a string after [strip()] is made of its characters. *)
Lemma strip_not_elem (s : str) (q : Z) : q ∉ s → q ∉ strip s.
Proof.
  intros Hq Hin. apply Hq. unfold strip in Hin.
  destruct (rstrip_prefix (lstrip s)) as [k Hk].
  destruct (lstrip_suffix s) as [k' Hk'].
  rewrite Hk', Hk. apply elem_of_app. right. apply elem_of_app. by left.
Qed.

(** The name between the first two double quotes of a line: the stripped
    line split at the double quote (character 34), piece 1. *)
Lemma chip_name_quoted (pre name post : str) :
  34 ∉ pre → 34 ∉ name →
  (fields ← split (strip (pre ++ 34 :: name ++ 34 :: post)) [34];
   getitem fields 1) = Ok name.
Proof.
  intros Hpre Hname. unfold strip.
  rewrite (lstrip_app_nonspace pre 34) by done.
  replace (lstrip pre ++ 34 :: name ++ 34 :: post)
    with ((lstrip pre ++ 34 :: name) ++ 34 :: post)
    by (by rewrite <- app_assoc).
  rewrite (rstrip_app_nonspace _ 34) by done.
  rewrite <- app_assoc. cbn [app]. unfold split. rewrite result_bind_eq.
  assert (34 ∉ lstrip pre) as Hpre'.
  { intros Hin. apply Hpre. destruct (lstrip_suffix pre) as [k ->].
    apply elem_of_app. by right. }
  rewrite (split_from_app _ _ _ Hpre'), (split_from_app _ _ _ Hname).
  apply getitem_1.
Qed.

Lemma chip_name_unquoted (line : str) :
  34 ∉ line →
  (fields ← split (strip line) [34]; getitem fields 1) = Err IndexError.
Proof.
  intros Hq. unfold split. rewrite result_bind_eq.
  by rewrite (split_from_no_sep _ _ (strip_not_elem _ _ Hq)).
Qed.

Section loop.
Context (self : page).

Lemma OnAutoDetect_loop_not_found (line : str) (rest : list str) :
  contains (py "Found") line = false →
  OnAutoDetect_loop (line :: rest) self = OnAutoDetect_loop rest self.
Proof. intros Hline. cbn [OnAutoDetect_loop]. by rewrite Hline. Qed.

Lemma OnAutoDetect_loop_found (line name : str) (rest : list str) :
  contains (py "Found") line = true →
  (fields ← split (strip line) [34]; getitem fields 1) = Ok name →
  OnAutoDetect_loop (line :: rest) self
  = OnAutoDetect_loop rest
      (page_with self [name] [py "Found ROM chip: " ++ name]).
Proof.
  intros Hline Hname. cbn [OnAutoDetect_loop]. rewrite Hline.
  rewrite !ui_bind_eq. unfold eval. by rewrite Hname.
Qed.

Lemma OnAutoDetect_loop_bad (line : str) (rest : list str) (e : py_error) :
  contains (py "Found") line = true →
  (fields ← split (strip line) [34]; getitem fields 1) = Err e →
  OnAutoDetect_loop (line :: rest) self = (Err e, self).
Proof.
  intros Hline Hname. cbn [OnAutoDetect_loop]. rewrite Hline.
  rewrite !ui_bind_eq. unfold eval. by rewrite Hname.
Qed.
End loop.

Lemma OnAutoDetect_loop_skip (before rest : list str) (self : page) :
  Forall (λ l, contains (py "Found") l = false) before →
  OnAutoDetect_loop (before ++ rest) self = OnAutoDetect_loop rest self.
Proof.
  induction 1 as [| l before Hl _ IH]; [done |].
  cbn [app]. by rewrite OnAutoDetect_loop_not_found.
Qed.

(** What the loop does is the same on every page: whether it raises, the
    names it appends and the messages it logs come from the lines alone. *)
Lemma OnAutoDetect_loop_run (stdout : list str) :
  ∃ (r : result unit) (names msgs : list str),
    ∀ self : page, OnAutoDetect_loop stdout self = (r, page_with self names msgs).
Proof.
  induction stdout as [| line stdout (r & names & msgs & IH)].
  - exists (Ok tt), [], []. intros self. by rewrite page_with_nil.
  - destruct (contains (py "Found") line) eqn:Hline.
    + destruct (fields ← split (strip line) [34]; getitem fields 1)
        as [name | e] eqn:Hname.
      * exists r, ([name] ++ names), ([py "Found ROM chip: " ++ name] ++ msgs).
        intros self.
        by rewrite (OnAutoDetect_loop_found _ _ _ _ Hline Hname), IH,
          page_with_with.
      * exists (Err e), [], []. intros self.
        by rewrite (OnAutoDetect_loop_bad _ _ _ _ Hline Hname), page_with_nil.
    + exists r, names, msgs. intros self.
      by rewrite (OnAutoDetect_loop_not_found _ _ _ Hline).
Qed.

Lemma OnAutoDetect_loop_app (done rest : list str) (self self1 : page) :
  OnAutoDetect_loop done self = (Ok tt, self1) →
  OnAutoDetect_loop (done ++ rest) self = OnAutoDetect_loop rest self1.
Proof.
  revert self. induction done as [| line done IH]; intros self.
  - cbn. by intros [= ->].
  - cbn [app]. destruct (contains (py "Found") line) eqn:Hline.
    + destruct (fields ← split (strip line) [34]; getitem fields 1)
        as [name | e] eqn:Hname.
      * rewrite !(OnAutoDetect_loop_found _ _ _ _ Hline Hname). apply IH.
      * by rewrite (OnAutoDetect_loop_bad _ _ _ _ Hline Hname).
    + rewrite !(OnAutoDetect_loop_not_found _ _ _ Hline). apply IH.
Qed.

(** [OnAutoDetect] with a programmer selected, from what its loop did. *)
Lemma OnAutoDetect_after_loop (stdout : list str) (self self1 : page) :
  programmer self ≠ py "" →
  OnAutoDetect_loop stdout self = (Ok tt, self1) →
  OnAutoDetect stdout self =
  if 1 <? Z.of_nat (length (chip_dropdown self1)) then
    (Ok tt,
     {| programmer := programmer self1;
        chip_dropdown := chip_dropdown self1;
        chip_dropdown_enabled := true;
        logged := logged self1 ++ [py "WARNING: More than 1 possible chip detected. Please select the correct chip from the dropdown."];
        dialogs := dialogs self1 ++ [py "More than 1 possible chip detected. Please select the correct chip from the dropdown."] |})
  else if Z.of_nat (length (chip_dropdown self1)) =? 0 then
    logging_info (py "No ROM chip detected. Please check your programmer connection.") self1
  else (Ok tt, self1).
Proof.
  intros Hprog Hloop. unfold OnAutoDetect.
  destruct (decide (programmer self = py "")) as [? | _]; [done |].
  rewrite ui_bind_eq, Hloop, ui_bind_eq.
  unfold chip_dropdown_GetItems at 1.
  destruct (1 <? Z.of_nat (length (chip_dropdown self1))); [done |].
  rewrite ui_bind_eq. unfold chip_dropdown_GetItems.
  by destruct (Z.of_nat (length (chip_dropdown self1)) =? 0).
Qed.

Lemma OnAutoDetect_loop_raises
    (stdout : list str) (self self1 : page) (e : py_error) :
  programmer self ≠ py "" →
  OnAutoDetect_loop stdout self = (Err e, self1) →
  OnAutoDetect stdout self = (Err e, self1).
Proof.
  intros Hprog Hloop. unfold OnAutoDetect.
  destruct (decide (programmer self = py "")) as [? | _]; [done |].
  by rewrite ui_bind_eq, Hloop.
Qed.

(** X19.  [OnAutoDetect] only ever adds: whether it returns or raises, the
    chips already in the dropdown stay, in place, at the front of the new
    list (the dropdown is never cleared), the log and the dialogs shown only
    grow, the programmer is not changed, and a dropdown that was enabled
    stays enabled. *)
Theorem OnAutoDetect_only_adds
    (stdout : list str) (self self' : page) (r : result unit) :
  OnAutoDetect stdout self = (r, self') →
  programmer self' = programmer self
  ∧ chip_dropdown self `prefix_of` chip_dropdown self'
  ∧ logged self `prefix_of` logged self'
  ∧ dialogs self `prefix_of` dialogs self'
  ∧ (chip_dropdown_enabled self = true → chip_dropdown_enabled self' = true).
Proof.
  destruct (decide (programmer self = py "")) as [Hprog | Hprog].
  - unfold OnAutoDetect.
    destruct (decide (programmer self = py "")) as [_ | ?]; [| done].
    intros [= <- <-]. cbn. repeat split; try done. by eexists.
  - destruct (OnAutoDetect_loop_run stdout) as (r0 & names & msgs & Hloop).
    specialize (Hloop self). destruct r0 as [[] | e].
    + rewrite (OnAutoDetect_after_loop _ _ _ Hprog Hloop).
      destruct (1 <? _); [| destruct (_ =? 0)]; intros [= <- <-]; cbn;
        repeat split; try done; try (by eexists);
        eexists; by rewrite <- app_assoc.
    + rewrite (OnAutoDetect_loop_raises _ _ _ _ Hprog Hloop).
      intros [= <- <-]. cbn. repeat split; try done; by eexists.
Qed.

Lemma OnAutoDetect_only_adds_witness :
  OnAutoDetect [py "Found chip W25Q64" ++ [10]]
    {| programmer := py "ch341a_spi"; chip_dropdown := [py "MX25L64"];
       chip_dropdown_enabled := true; logged := []; dialogs := [] |}
  = (Err IndexError,
     {| programmer := py "ch341a_spi"; chip_dropdown := [py "MX25L64"];
        chip_dropdown_enabled := true; logged := []; dialogs := [] |})
  ∧ py "ch341a_spi" = py "ch341a_spi"
  ∧ [py "MX25L64"] `prefix_of` [py "MX25L64"]
  ∧ @nil str `prefix_of` []
  ∧ @nil str `prefix_of` []
  ∧ (true = true → true = true).
Proof.
  split; [vm_compute; reflexivity |].
  apply (OnAutoDetect_only_adds [py "Found chip W25Q64" ++ [10]]
           {| programmer := py "ch341a_spi"; chip_dropdown := [py "MX25L64"];
              chip_dropdown_enabled := true; logged := []; dialogs := [] |}
           {| programmer := py "ch341a_spi"; chip_dropdown := [py "MX25L64"];
              chip_dropdown_enabled := true; logged := []; dialogs := [] |}
           (Err IndexError)).
  vm_compute; reflexivity.
Defined.

(** X20.  One chip reported: on a page whose dropdown is empty, with a
    programmer selected, when exactly one line of the output contains
    "Found" and that line has the chip name between its first two double
    quotes, [OnAutoDetect] returns with that name as the only item of the
    dropdown and "Found ROM chip: " and the name logged; no warning is
    shown and the dropdown is not enabled. *)
Theorem OnAutoDetect_one_chip
    (self : page) (before after : list str) (pre name post : str) :
  programmer self ≠ py "" → chip_dropdown self = [] →
  Forall (λ l, contains (py "Found") l = false) before →
  Forall (λ l, contains (py "Found") l = false) after →
  contains (py "Found") (pre ++ 34 :: name ++ 34 :: post) = true →
  34 ∉ pre → 34 ∉ name →
  OnAutoDetect (before ++ (pre ++ 34 :: name ++ 34 :: post) :: after) self
  = (Ok tt,
     {| programmer := programmer self;
        chip_dropdown := [name];
        chip_dropdown_enabled := chip_dropdown_enabled self;
        logged := logged self ++ [py "Found ROM chip: " ++ name];
        dialogs := dialogs self |}).
Proof.
  intros Hprog Hempty Hbefore Hafter Hline Hpre Hname.
  assert (OnAutoDetect_loop
            (before ++ (pre ++ 34 :: name ++ 34 :: post) :: after) self
          = (Ok tt, page_with self [name] [py "Found ROM chip: " ++ name]))
    as Hloop.
  { rewrite (OnAutoDetect_loop_skip _ _ _ Hbefore).
    rewrite (OnAutoDetect_loop_found _ _ name _ Hline)
      by (by apply chip_name_quoted).
    rewrite <- (app_nil_r after).
    by rewrite (OnAutoDetect_loop_skip _ _ _ Hafter). }
  rewrite (OnAutoDetect_after_loop _ _ _ Hprog Hloop).
  unfold page_with. cbn [chip_dropdown]. rewrite Hempty. done.
Qed.

Lemma OnAutoDetect_one_chip_witness :
  py "ch341a_spi" ≠ py ""
  ∧ Forall (λ l, contains (py "Found") l = false) [py "flashrom v1.2" ++ [10]]
  ∧ Forall (λ l, contains (py "Found") l = false) [py "No operations." ++ [10]]
  ∧ contains (py "Found")
      (py "Found Winbond flash chip " ++ 34 :: py "W25Q64.V"
         ++ 34 :: py " (8192 kB, SPI)." ++ [10]) = true
  ∧ (34 ∉ py "Found Winbond flash chip ") ∧ (34 ∉ py "W25Q64.V")
  ∧ OnAutoDetect
      ([py "flashrom v1.2" ++ [10]]
       ++ (py "Found Winbond flash chip " ++ 34 :: py "W25Q64.V"
             ++ 34 :: py " (8192 kB, SPI)." ++ [10])
          :: [py "No operations." ++ [10]])
      {| programmer := py "ch341a_spi"; chip_dropdown := [];
         chip_dropdown_enabled := false; logged := []; dialogs := [] |}
    = (Ok tt,
       {| programmer := py "ch341a_spi"; chip_dropdown := [py "W25Q64.V"];
          chip_dropdown_enabled := false;
          logged := [] ++ [py "Found ROM chip: " ++ py "W25Q64.V"];
          dialogs := [] |}).
Proof.
  assert (Forall (λ l, contains (py "Found") l = false)
            [py "flashrom v1.2" ++ [10]]) as Hbefore
    by (constructor; [vm_compute; reflexivity | constructor]).
  assert (Forall (λ l, contains (py "Found") l = false)
            [py "No operations." ++ [10]]) as Hafter
    by (constructor; [vm_compute; reflexivity | constructor]).
  assert (34 ∉ py "Found Winbond flash chip ") as Hpre
    by (apply (bool_decide_unpack _); vm_compute; exact I).
  assert (34 ∉ py "W25Q64.V") as Hname
    by (apply (bool_decide_unpack _); vm_compute; exact I).
  split; [discriminate |]. split; [exact Hbefore |]. split; [exact Hafter |].
  split; [vm_compute; reflexivity |]. split; [exact Hpre |].
  split; [exact Hname |].
  apply (OnAutoDetect_one_chip
           {| programmer := py "ch341a_spi"; chip_dropdown := [];
              chip_dropdown_enabled := false; logged := []; dialogs := [] |}
           [py "flashrom v1.2" ++ [10]] [py "No operations." ++ [10]]
           (py "Found Winbond flash chip ") (py "W25Q64.V")
           (py " (8192 kB, SPI)." ++ [10]));
    [discriminate | reflexivity | exact Hbefore | exact Hafter
    | vm_compute; reflexivity | exact Hpre | exact Hname].
Defined.

(** X21.  Auto Detect a second time lists every chip a second time.  With a
    programmer selected, when a run on the same output returns after adding
    the names [new] to the dropdown, a second run adds [new] again; and
    when [new] is not empty, that second run ends with two items or more:
    it shows the "More than 1 possible chip" warning and enables the
    dropdown, even when flashrom reported a single chip. *)
Theorem OnAutoDetect_twice (stdout : list str) (self self1 : page) :
  programmer self ≠ py "" →
  OnAutoDetect stdout self = (Ok tt, self1) →
  ∃ (new : list str) (self2 : page),
    chip_dropdown self1 = chip_dropdown self ++ new
    ∧ OnAutoDetect stdout self1 = (Ok tt, self2)
    ∧ chip_dropdown self2 = chip_dropdown self ++ new ++ new
    ∧ (new ≠ [] →
       chip_dropdown_enabled self2 = true
       ∧ dialogs self2
         = dialogs self1 ++
           [py "More than 1 possible chip detected. Please select the correct chip from the dropdown."]).
Proof.
  intros Hprog Hrun.
  destruct (OnAutoDetect_loop_run stdout) as (r0 & names & msgs & Hloop).
  pose proof (Hloop self) as Hloop0. destruct r0 as [[] | e].
  2: { by rewrite (OnAutoDetect_loop_raises _ _ _ _ Hprog Hloop0) in Hrun. }
  rewrite (OnAutoDetect_after_loop _ _ _ Hprog Hloop0) in Hrun.
  assert (programmer self1 = programmer self
          ∧ chip_dropdown self1 = chip_dropdown self ++ names) as [Hp1 Hc1].
  { revert Hrun. destruct (1 <? _); [| destruct (_ =? 0)];
      by intros [= <-]. }
  assert (programmer self1 ≠ py "") as Hprog1 by (by rewrite Hp1).
  pose proof (Hloop self1) as Hloop1.
  rewrite (OnAutoDetect_after_loop _ _ _ Hprog1 Hloop1).
  cbn [page_with chip_dropdown]. rewrite Hc1, <- app_assoc.
  destruct (Z.ltb_spec 1
              (Z.of_nat (length (chip_dropdown self ++ names ++ names))))
    as [_ | Hle].
  - exists names. eexists. by repeat split.
  - assert (names = []) as ->.
    { rewrite !length_app in Hle. destruct names; [done | cbn in Hle; lia]. }
    exists []. destruct (_ =? 0); eexists;
      (split; [done |]; split; [done |]; split; [| by intros ?]);
      cbn; by rewrite Hc1, !app_nil_r.
Qed.

Lemma OnAutoDetect_twice_witness :
  py "ch341a_spi" ≠ py ""
  ∧ OnAutoDetect [py "Found chip " ++ 34 :: py "W25Q64" ++ [34; 10]]
      {| programmer := py "ch341a_spi"; chip_dropdown := [];
         chip_dropdown_enabled := false; logged := []; dialogs := [] |}
    = (Ok tt,
       {| programmer := py "ch341a_spi"; chip_dropdown := [py "W25Q64"];
          chip_dropdown_enabled := false;
          logged := [py "Found ROM chip: W25Q64"]; dialogs := [] |})
  ∧ ∃ (new : list str) (self2 : page),
      [py "W25Q64"] = [] ++ new
      ∧ OnAutoDetect [py "Found chip " ++ 34 :: py "W25Q64" ++ [34; 10]]
          {| programmer := py "ch341a_spi"; chip_dropdown := [py "W25Q64"];
             chip_dropdown_enabled := false;
             logged := [py "Found ROM chip: W25Q64"]; dialogs := [] |}
        = (Ok tt, self2)
      ∧ chip_dropdown self2 = [] ++ new ++ new
      ∧ (new ≠ [] →
         chip_dropdown_enabled self2 = true
         ∧ dialogs self2
           = [] ++
             [py "More than 1 possible chip detected. Please select the correct chip from the dropdown."]).
Proof.
  split; [discriminate |]. split; [vm_compute; reflexivity |].
  apply (OnAutoDetect_twice [py "Found chip " ++ 34 :: py "W25Q64" ++ [34; 10]]
           {| programmer := py "ch341a_spi"; chip_dropdown := [];
              chip_dropdown_enabled := false; logged := []; dialogs := [] |}
           {| programmer := py "ch341a_spi"; chip_dropdown := [py "W25Q64"];
              chip_dropdown_enabled := false;
              logged := [py "Found ROM chip: W25Q64"]; dialogs := [] |});
    [discriminate | vm_compute; reflexivity].
Defined.

(** X22.  A line that contains "Found" and no double quote stops
    [OnAutoDetect] with [IndexError], with a programmer selected: the chips
    of the lines before it stay in the dropdown, the lines after it are not
    read, and neither the warning nor the "No ROM chip detected" message
    is given. *)
Theorem OnAutoDetect_found_without_quote
    (self self1 : page) (done after : list str) (line : str) :
  programmer self ≠ py "" →
  OnAutoDetect_loop done self = (Ok tt, self1) →
  contains (py "Found") line = true → 34 ∉ line →
  OnAutoDetect (done ++ line :: after) self = (Err IndexError, self1).
Proof.
  intros Hprog Hdone Hline Hquote.
  apply (OnAutoDetect_loop_raises _ _ _ _ Hprog).
  rewrite (OnAutoDetect_loop_app _ _ _ _ Hdone).
  apply (OnAutoDetect_loop_bad _ _ _ _ Hline).
  by apply chip_name_unquoted.
Qed.

Lemma OnAutoDetect_found_without_quote_witness :
  py "ch341a_spi" ≠ py ""
  ∧ OnAutoDetect_loop [py "Found chip " ++ 34 :: py "W25Q64" ++ [34; 10]]
      {| programmer := py "ch341a_spi"; chip_dropdown := [];
         chip_dropdown_enabled := false; logged := []; dialogs := [] |}
    = (Ok tt,
       {| programmer := py "ch341a_spi"; chip_dropdown := [py "W25Q64"];
          chip_dropdown_enabled := false;
          logged := [py "Found ROM chip: W25Q64"]; dialogs := [] |})
  ∧ contains (py "Found") (py "Found nothing" ++ [10]) = true
  ∧ (34 ∉ py "Found nothing" ++ [10])
  ∧ OnAutoDetect
      ([py "Found chip " ++ 34 :: py "W25Q64" ++ [34; 10]]
       ++ (py "Found nothing" ++ [10]) :: [])
      {| programmer := py "ch341a_spi"; chip_dropdown := [];
         chip_dropdown_enabled := false; logged := []; dialogs := [] |}
    = (Err IndexError,
       {| programmer := py "ch341a_spi"; chip_dropdown := [py "W25Q64"];
          chip_dropdown_enabled := false;
          logged := [py "Found ROM chip: W25Q64"]; dialogs := [] |}).
Proof.
  assert (34 ∉ py "Found nothing" ++ [10]) as Hquote
    by (apply (bool_decide_unpack _); vm_compute; exact I).
  split; [discriminate |]. split; [vm_compute; reflexivity |].
  split; [vm_compute; reflexivity |]. split; [exact Hquote |].
  apply (OnAutoDetect_found_without_quote
           {| programmer := py "ch341a_spi"; chip_dropdown := [];
              chip_dropdown_enabled := false; logged := []; dialogs := [] |}
           {| programmer := py "ch341a_spi"; chip_dropdown := [py "W25Q64"];
              chip_dropdown_enabled := false;
              logged := [py "Found ROM chip: W25Q64"]; dialogs := [] |}
           [py "Found chip " ++ 34 :: py "W25Q64" ++ [34; 10]] []
           (py "Found nothing" ++ [10]));
    [discriminate | vm_compute; reflexivity | vm_compute; reflexivity
    | exact Hquote].
Defined.

(** ** [PopulateAvailableProgrammers] *)

(** The words of a line of choices, once its dots and commas are taken out:
    not empty, and without white space, dot or comma. *)
Lemma programmers_of_line (line : str) :
  Forall (λ p, p ≠ [] ∧ Forall (λ c, isspace c = false ∧ c ≠ 46 ∧ c ≠ 44) p)
    (split_ws (replace (replace line (py ".") (py "")) (py ",") (py ""))).
Proof.
  change (py ".") with [46]. change (py ",") with [44]. change (py "") with (@nil Z).
  rewrite !replace_single_empty. unfold split_ws.
  eapply Forall_impl; [by apply (split_ws_from_words []) |].
  intros p [Hne Hp]. split; [done |].
  eapply Forall_impl; [exact Hp |]. intros c [Hc Hin]. split; [done |].
  cbn [app] in Hin.
  apply list_elem_of_filter in Hin as [Hcomma Hin].
  by apply list_elem_of_filter in Hin as [Hdot _].
Qed.

(** X23.  Without a line "Valid choices are:" in the output of flashrom,
    [PopulateAvailableProgrammers] raises [ValueError] (from [index]) and
    the combo box is left as it was, whatever the decoder. *)
Theorem PopulateAvailableProgrammers_no_header
    (decode : bytes → result str) (output_lines : list bytes)
    (programmer_combo : list str) :
  pyb "Valid choices are:" ++ [x0a] ∉ output_lines →
  PopulateAvailableProgrammers decode output_lines programmer_combo
  = (Err ValueError, programmer_combo).
Proof.
  intros Hno. unfold PopulateAvailableProgrammers.
  by rewrite (index_absent _ _ Hno).
Qed.

Lemma PopulateAvailableProgrammers_no_header_witness :
  (pyb "Valid choices are:" ++ [x0a]
     ∉ [pyb "flashrom: command not found" ++ [x0a]])
  ∧ PopulateAvailableProgrammers (λ _, Err UnicodeDecodeError)
      [pyb "flashrom: command not found" ++ [x0a]] [py "dummy"]
    = (Err ValueError, [py "dummy"]).
Proof.
  assert (pyb "Valid choices are:" ++ [x0a]
            ∉ [pyb "flashrom: command not found" ++ [x0a]]) as Hno
    by (apply (bool_decide_unpack _); vm_compute; exact I).
  split; [exact Hno |].
  apply (PopulateAvailableProgrammers_no_header (λ _, Err UnicodeDecodeError)
           [pyb "flashrom: command not found" ++ [x0a]] [py "dummy"] Hno).
Defined.

(** X24.  [PopulateAvailableProgrammers] appends all the names or none.
    When it raises, the combo box is as it was.  When it returns, the old
    items are kept in front and every name appended is not empty and holds
    no white space, no dot and no comma, whatever the decoder gives. *)
Theorem PopulateAvailableProgrammers_names
    (decode : bytes → result str) (output_lines : list bytes)
    (programmer_combo programmer_combo' : list str) (r : result unit) :
  PopulateAvailableProgrammers decode output_lines programmer_combo
  = (r, programmer_combo') →
  match r with
  | Err _ => programmer_combo' = programmer_combo
  | Ok _ =>
      ∃ programmers : list str,
        programmer_combo' = programmer_combo ++ programmers
        ∧ Forall (λ p, p ≠ []
                       ∧ Forall (λ c, isspace c = false ∧ c ≠ 46 ∧ c ≠ 44) p)
            programmers
  end.
Proof.
  unfold PopulateAvailableProgrammers. rewrite !result_bind_eq.
  destruct (index output_lines _) as [options_start |]; [| by intros [= <- <-]].
  rewrite !result_bind_eq.
  destruct (comprehension _ _) as [options |]; [| by intros [= <- <-]].
  intros [= <- <-]. eexists. split; [done |].
  apply Forall_concat, Forall_fmap, Forall_forall.
  intros line _. apply programmers_of_line.
Qed.

Lemma PopulateAvailableProgrammers_names_witness :
  PopulateAvailableProgrammers
    (λ b, Ok ((λ x, Z.of_N (Byte.to_N x)) <$> b))
    [pyb "Valid choices are:" ++ [x0a]; pyb "internal, dummy," ++ [x0a];
     pyb "ch341a_spi." ++ [x0a]]
    []
  = (Ok tt, [py "internal"; py "dummy"; py "ch341a_spi"])
  ∧ ∃ programmers : list str,
      [py "internal"; py "dummy"; py "ch341a_spi"] = [] ++ programmers
      ∧ Forall (λ p, p ≠ []
                     ∧ Forall (λ c, isspace c = false ∧ c ≠ 46 ∧ c ≠ 44) p)
          programmers.
Proof.
  split; [vm_compute; reflexivity |].
  apply (PopulateAvailableProgrammers_names
           (λ b, Ok ((λ x, Z.of_N (Byte.to_N x)) <$> b))
           [pyb "Valid choices are:" ++ [x0a]; pyb "internal, dummy," ++ [x0a];
            pyb "ch341a_spi." ++ [x0a]]
           [] [py "internal"; py "dummy"; py "ch341a_spi"] (Ok tt)).
  vm_compute; reflexivity.
Defined.

(** X25.  Only what comes after the first "Valid choices are:" line counts:
    the lines before it (banner, usage, error text) do not change what
    [PopulateAvailableProgrammers] does. *)
Theorem PopulateAvailableProgrammers_after_header
    (decode : bytes → result str) (before after : list bytes)
    (programmer_combo : list str) :
  pyb "Valid choices are:" ++ [x0a] ∉ before →
  PopulateAvailableProgrammers decode
    (before ++ (pyb "Valid choices are:" ++ [x0a]) :: after) programmer_combo
  = PopulateAvailableProgrammers decode
      ((pyb "Valid choices are:" ++ [x0a]) :: after) programmer_combo.
Proof.
  intros Hno. unfold PopulateAvailableProgrammers.
  pose proof (index_first [] after _ (not_elem_of_nil
                (pyb "Valid choices are:" ++ [x0a]))) as Hfirst.
  cbn [app] in Hfirst. rewrite (index_first _ _ _ Hno), Hfirst.
  rewrite !result_bind_eq. change (slice_from _ (Z.of_nat (length []) + 1))
    with after.
  replace (slice_from (before ++ (pyb "Valid choices are:" ++ [x0a]) :: after)
             (Z.of_nat (length before) + 1)) with after; [done |].
  unfold slice_from.
  destruct (Z.ltb_spec (Z.of_nat (length before) + 1) 0); [lia |].
  replace (Z.to_nat (Z.of_nat (length before) + 1))
    with (length (before ++ [pyb "Valid choices are:" ++ [x0a]]))
    by (rewrite length_app; cbn; lia).
  by rewrite (cons_middle _ before after), app_assoc, drop_app_length.
Qed.

Lemma PopulateAvailableProgrammers_after_header_witness :
  (pyb "Valid choices are:" ++ [x0a] ∉ [pyb "flashrom v1.2" ++ [x0a]])
  ∧ PopulateAvailableProgrammers (λ b, Ok ((λ x, Z.of_N (Byte.to_N x)) <$> b))
      ([pyb "flashrom v1.2" ++ [x0a]]
       ++ (pyb "Valid choices are:" ++ [x0a]) :: [pyb "internal, dummy." ++ [x0a]])
      []
    = PopulateAvailableProgrammers (λ b, Ok ((λ x, Z.of_N (Byte.to_N x)) <$> b))
        ((pyb "Valid choices are:" ++ [x0a]) :: [pyb "internal, dummy." ++ [x0a]])
        [].
Proof.
  assert (pyb "Valid choices are:" ++ [x0a] ∉ [pyb "flashrom v1.2" ++ [x0a]])
    as Hno by (apply (bool_decide_unpack _); vm_compute; exact I).
  split; [exact Hno |].
  apply (PopulateAvailableProgrammers_after_header
           (λ b, Ok ((λ x, Z.of_N (Byte.to_N x)) <$> b))
           [pyb "flashrom v1.2" ++ [x0a]] [pyb "internal, dummy." ++ [x0a]] []
           Hno).
Defined.
